(** * The ITURHFProp service of OpenHamClock: a shallow embedding

    The service wraps the ITURHFProp prediction engine behind a REST API
    (the server source of the service; line numbers below are its own).
    This development embeds the adapter code of that file: the input
    serializer [generateInputFile], the report
    parser [parseOutputFile], the engine runner [runPrediction] and the
    three prediction endpoints, and proves properties of them.

    Conventions of the embedding.
    - A JavaScript string is a [string]: a sequence of code units below 256.
    - A JavaScript number is an IEEE 754 binary64 [float] (the kernel's
      primitive floats), so comparisons and arithmetic are those of the
      language.
    - Effects (file system, clock, random ids, the engine process) are
      threaded through an explicit [World]; a computation either returns
      or throws.
    - [console.log] and [console.error] output is not modelled. *)

From Stdlib Require Import ZArith List String Ascii Floats Lia Bool.
From Stdlib Require Import DecimalString.
From stdpp Require Import gmap strings.

Set Warnings "-inexact-float".
Open Scope string_scope.
Open Scope Z_scope.

(** ** JavaScript strings *)

Module JsString.

(** The double quote, as a one-character string. *)
Definition dquote : string := String (ascii_of_nat 34) EmptyString.

(** The line feed, as a character and as a one-character string. *)
Definition LF : ascii := ascii_of_nat 10.
Definition nl : string := String LF EmptyString.

Definition code (c : ascii) : Z := Z.of_N (N_of_ascii c).

(** WhiteSpace and LineTerminator code points below 256: TAB, LF, VT, FF,
    CR, SP and NBSP.  They are what [trim] strips, what [\s] matches and
    what [parseFloat] and [parseInt] skip. *)
Definition is_white_space (c : ascii) : bool :=
  let n := code c in
  ((9 <=? n) && (n <=? 13)) || (n =? 32) || (n =? 160).

Fixpoint trimStart (s : string) : string :=
  match s with
  | String c s' => if is_white_space c then trimStart s' else s
  | EmptyString => EmptyString
  end.

Fixpoint trimEnd (s : string) : string :=
  match s with
  | EmptyString => EmptyString
  | String c s' =>
      match trimEnd s' with
      | EmptyString => if is_white_space c then EmptyString else String c EmptyString
      | t => String c t
      end
  end.

(** [s.trim()] *)
Definition trim (s : string) : string := trimEnd (trimStart s).

(** [s.startsWith(p)] *)
Definition startsWith (s p : string) : bool := String.prefix p s.

(** [s.includes(needle)] *)
Fixpoint includes (s needle : string) {struct s} : bool :=
  String.prefix needle s ||
  match s with
  | EmptyString => false
  | String _ s' => includes s' needle
  end.

(** [s.split(sep)] for a one-character separator. *)
Fixpoint split (sep : ascii) (s : string) : list string :=
  match s with
  | EmptyString => [EmptyString]
  | String c s' =>
      if Ascii.eqb c sep then EmptyString :: split sep s'
      else match split sep s' with
           | h :: t => String c h :: t
           | [] => [String c EmptyString]
           end
  end.

(** [parts.join(sep)] *)
Fixpoint join (sep : string) (parts : list string) : string :=
  match parts with
  | [] => EmptyString
  | [x] => x
  | x :: rest => x ++ sep ++ join sep rest
  end.

(** [s.substring(0, n)] *)
Definition substring0 (n : nat) (s : string) : string := String.substring 0 n s.

(** A string is truthy when it is not empty. *)
Definition truthy (s : string) : bool :=
  match s with EmptyString => false | _ => true end.

(** ASCII lower case, for the [i] flag of a regular expression. *)
Definition lower (c : ascii) : ascii :=
  let n := code c in
  if (65 <=? n) && (n <=? 90) then ascii_of_N (Z.to_N (n + 32)) else c.

(** [p] is a prefix of [s] up to ASCII case; the rest of [s] after it. *)
Fixpoint strip_prefix_ci (p s : string) : option string :=
  match p, s with
  | EmptyString, _ => Some s
  | String a p', String b s' =>
      if Ascii.eqb (lower a) (lower b) then strip_prefix_ci p' s' else None
  | String _ _, EmptyString => None
  end.

End JsString.

Import JsString.

(** ** JavaScript numbers *)

Module JsNumber.

Definition nan : float := PrimFloat.nan.
Definition isNaN (x : float) : bool := PrimFloat.is_nan x.

(** The Number value of a mathematical integer (round to nearest, ties to
    even). *)
Definition of_Z (z : Z) : float := SF2Prim (binary_normalize prec emax z 0 false).

(** A number is falsy when it is NaN, [+0] or [-0]. *)
Definition truthy (x : float) : bool :=
  negb (isNaN x) && negb (PrimFloat.eqb x 0%float).

(** [a || b] on numbers. *)
Definition or_else (a b : float) : float := if truthy a then a else b.

Definition digit_val (c : ascii) : option Z :=
  let n := code c in
  if (48 <=? n) && (n <=? 57) then Some (n - 48) else None.

Definition hex_val (c : ascii) : option Z :=
  let n := code c in
  if (48 <=? n) && (n <=? 57) then Some (n - 48)
  else if (97 <=? n) && (n <=? 102) then Some (n - 87)
  else if (65 <=? n) && (n <=? 70) then Some (n - 55)
  else None.

(** Reads the longest run of digits in front of [s]: the number read after
    [acc], how many digits were read after [cnt], and the rest. *)
Fixpoint scan_digits (val : ascii -> option Z) (radix : Z)
    (s : string) (acc cnt : Z) : Z * Z * string :=
  match s with
  | String c s' =>
      match val c with
      | Some d => scan_digits val radix s' (radix * acc + d) (cnt + 1)
      | None => (acc, cnt, s)
      end
  | EmptyString => (acc, cnt, s)
  end.

Definition signed_zero (neg : bool) : float :=
  if neg then (-0)%float else 0%float.

Definition signed_infinity (neg : bool) : float :=
  if neg then neg_infinity else infinity.

(** The Number value of [m * 10^e] with sign [neg], for [m >= 0] written
    with [cnt] digits: correctly rounded.  Magnitudes beyond the range of
    binary64 are cut short before any power is computed. *)
Definition of_decimal (neg : bool) (m cnt e : Z) : float :=
  if m =? 0 then signed_zero neg
  else if 310 <? e then signed_infinity neg
  else if e + cnt <? -330 then signed_zero neg
  else if 0 <=? e then
    SF2Prim (binary_normalize prec emax ((if neg then -m else m) * 10 ^ e) 0 false)
  else
    SF2Prim (SFdiv prec emax (S754_finite neg (Z.to_pos m) 0)
                             (S754_finite false (Z.to_pos (10 ^ (- e))) 0)).

(** The sign in front of a numeric literal: whether it is negative, and the
    rest. *)
Definition scan_sign (s : string) : bool * string :=
  match s with
  | String "-" s' => (true, s')
  | String "+" s' => (false, s')
  | _ => (false, s)
  end.

(** The exponent part [e[+-]digits] in front of [s], 0 when there is none. *)
Definition scan_exponent (s : string) : Z :=
  match s with
  | String c s' =>
      if Ascii.eqb c "e" || Ascii.eqb c "E" then
        let '(eneg, s'') := scan_sign s' in
        let '(ev, ecnt, _) := scan_digits digit_val 10 s'' 0 0 in
        if ecnt =? 0 then 0 else if eneg then - ev else ev
      else 0
  | EmptyString => 0
  end.

(** [parseFloat(s)]: the longest prefix of [s], after leading white space,
    that is a decimal literal; NaN when there is none. *)
Definition parseFloat (s : string) : float :=
  let '(neg, s1) := scan_sign (trimStart s) in
  if startsWith s1 "Infinity" then signed_infinity neg
  else
    let '(ip, icnt, s2) := scan_digits digit_val 10 s1 0 0 in
    let '(m, fcnt, s3) :=
      match s2 with
      | String "." s2' => scan_digits digit_val 10 s2' ip 0
      | _ => (ip, 0, s2)
      end in
    if icnt + fcnt =? 0 then nan
    else of_decimal neg m (icnt + fcnt) (scan_exponent s3 - fcnt).

(** [parseInt(s)] with no radix: decimal, or hexadecimal after [0x]. *)
Definition parseInt (s : string) : float :=
  let '(neg, s1) := scan_sign (trimStart s) in
  let '(v, cnt, _) :=
    match s1 with
    | String "0" (String x s2) =>
        if Ascii.eqb x "x" || Ascii.eqb x "X" then scan_digits hex_val 16 s2 0 0
        else scan_digits digit_val 10 s1 0 0
    | _ => scan_digits digit_val 10 s1 0 0
    end in
  if cnt =? 0 then nan
  else if v =? 0 then signed_zero neg
  else of_Z (if neg then - v else v).

(** A query or object field that may be [undefined]: [ToString(undefined)]
    is the text [undefined], which parses to NaN. *)
Definition parseFloat_opt (v : option string) : float :=
  match v with Some s => parseFloat s | None => nan end.

Definition parseInt_opt (v : option string) : float :=
  match v with Some s => parseInt s | None => nan end.

(** The decimal digits of a natural number. *)
Definition digits (n : Z) : string := NilZero.string_of_uint (N.to_uint (Z.to_N n)).

Fixpoint zeros (k : nat) : string :=
  match k with O => EmptyString | S k' => String "0" (zeros k') end.

(** The digits of [n] with a point in front of the last [f] of them, padded
    with zeros to at least one digit before the point. *)
Definition fixed_digits (f : nat) (n : Z) : string :=
  let m := digits n in
  match f with
  | O => m
  | _ =>
      let k := String.length m in
      let m' := if (k <=? f)%nat then zeros (f + 1 - k) ++ m else m in
      let k' := String.length m' in
      String.substring 0 (k' - f) m' ++ "." ++ String.substring (k' - f) f m'
  end.

(** The integer nearest to [m * 2^e * 10^f], the larger one of two. *)
Definition scaled_round (m e : Z) (f : nat) : Z :=
  let a := m * 10 ^ Z.of_nat f in
  if 0 <=? e then a * 2 ^ e
  else (2 * a + 2 ^ (- e)) / 2 ^ (- e + 1).

(** Whether [m * 2^e >= 10^21]. *)
Definition at_least_1e21 (m e : Z) : bool :=
  if 0 <=? e then 10 ^ 21 <=? m * 2 ^ e else 10 ^ 21 * 2 ^ (- e) <=? m.

(** Whether [m * 2^e > 2^53]: above the safe integers the doubles are more
    than 1 apart, and [Number::toString] no longer prints every digit of
    the integer. *)
Definition beyond_safe_integers (m e : Z) : bool :=
  if 0 <=? e then 2 ^ 53 <? m * 2 ^ e else 2 ^ 53 * 2 ^ (- e) <? m.

Section Formatting.

(** [Number::toString] outside the integers up to 2^53 is the shortest
    round-trip decimal expansion of the language; it is a parameter here. *)
Variable Number_toString_shortest : float -> string.

(** [String(x)], as a template literal interpolates a number.  An integer
    of magnitude up to 2^53 is its own shortest round-trip expansion: a
    shorter one would be another integer below 2^53, which is a double of
    its own. *)
Definition Number_toString (x : float) : string :=
  match Prim2SF x with
  | S754_nan => "NaN"
  | S754_infinity neg => if neg then "-Infinity" else "Infinity"
  | S754_zero _ => "0"
  | S754_finite neg m e =>
      let m := Z.pos m in
      if beyond_safe_integers m e then Number_toString_shortest x
      else if 0 <=? e then (if neg then "-" else "") ++ digits (m * 2 ^ e)
      else if m mod 2 ^ (- e) =? 0 then
        (if neg then "-" else "") ++ digits (m / 2 ^ (- e))
      else Number_toString_shortest x
  end.

(** [x.toFixed(f)] *)
Definition toFixed (f : nat) (x : float) : string :=
  match Prim2SF x with
  | S754_nan => "NaN"
  | S754_infinity neg => if neg then "-Infinity" else "Infinity"
  | S754_zero _ => fixed_digits f 0
  | S754_finite neg m e =>
      let m := Z.pos m in
      (if neg then "-" else "") ++
      (if at_least_1e21 m e then Number_toString_shortest (PrimFloat.abs x)
       else fixed_digits f (scaled_round m e f))
  end.

End Formatting.

End JsNumber.

Import JsNumber.

(** ** The world: file system, clock, random ids *)

(** What a path names: a regular file with its contents, or a directory. *)
Inductive Node : Type :=
| File (content : string)
| Dir.

Record World : Type := mkWorld {
  (** the file system, by absolute path *)
  nodes : gmap string Node;
  (** the time value [Date.now()] reads, in milliseconds *)
  clock : Z;
  (** the tokens [crypto.randomBytes(8).toString('hex')] will return, in
      order *)
  entropy : list string
}.

Definition with_nodes (f : gmap string Node -> gmap string Node) (w : World) : World :=
  {| nodes := f (nodes w); clock := clock w; entropy := entropy w |}.

(** The calls of Node's [fs] module the service makes. *)
Inductive FsCall : Type :=
| mkdir_call (path : string)
| writeFile_call (path : string)
| readFile_call (path : string)
| read_call
| stat_call (path : string)
| readdir_call (path : string)
| unlink_call (path : string).

(** The system call an error of the call names, and the path it names:
    [readFileSync] opens the file and then reads the descriptor, and an
    error of the read carries no path. *)
Definition syscall (c : FsCall) : string * option string :=
  match c with
  | mkdir_call p => ("mkdir", Some p)
  | writeFile_call p => ("open", Some p)
  | readFile_call p => ("open", Some p)
  | read_call => ("read", None)
  | stat_call p => ("stat", Some p)
  | readdir_call p => ("scandir", Some p)
  | unlink_call p => ("unlink", Some p)
  end.

(** What a child process that failed leaves on the error [execSync] throws:
    the exit status ([None] when it was killed, as on a timeout), and what
    it wrote, when that was captured. *)
Record ExecFailure : Type := mkExecFailure {
  status : option Z;
  stdout : option string;
  stderr : option string;
  exec_message : string
}.

(** A thrown JavaScript error. *)
Inductive Error : Type :=
| SystemError (call : FsCall) (reason : string)
| ChildProcessError (failure : ExecFailure).

(** [err.message] *)
Definition message (e : Error) : string :=
  match e with
  | SystemError c reason =>
      reason ++ ", " ++ fst (syscall c) ++
      match snd (syscall c) with
      | Some p => " '" ++ p ++ "'"
      | None => ""
      end
  | ChildProcessError f => exec_message f
  end.

(** [err.stdout?.toString() || ''] and [err.stderr?.toString() || ''] *)
Definition error_stdout (e : Error) : string :=
  match e with
  | ChildProcessError f => default "" (stdout f)
  | SystemError _ _ => ""
  end.

Definition error_stderr (e : Error) : string :=
  match e with
  | ChildProcessError f => default "" (stderr f)
  | SystemError _ _ => ""
  end.

Definition is_fs_error (e : Error) : bool :=
  match e with SystemError _ _ => true | ChildProcessError _ => false end.

(** ** Computations that may throw *)

Inductive Outcome (A : Type) : Type :=
| Returned (a : A)
| Thrown (e : Error).
Arguments Returned {A} a.
Arguments Thrown {A} e.

Definition M (A : Type) : Type := World -> Outcome A * World.

Definition ret {A} (a : A) : M A := fun w => (Returned a, w).

Definition throw {A} (e : Error) : M A := fun w => (Thrown e, w).

Definition bind {A B} (c : M A) (k : A -> M B) : M B :=
  fun w =>
    match c w with
    | (Returned a, w') => k a w'
    | (Thrown e, w') => (Thrown e, w')
    end.

(** [try { c } catch (err) { h err }] *)
Definition try_catch {A} (c : M A) (h : Error -> M A) : M A :=
  fun w =>
    match c w with
    | (Returned a, w') => (Returned a, w')
    | (Thrown e, w') => h e w'
    end.

(** [try { c } finally { f }]: [f] runs on every way out of [c]; when [f]
    itself completes normally, the outcome of [c] stands. *)
Definition try_finally {A} (c : M A) (f : M unit) : M A :=
  fun w =>
    match c w with
    | (o, w') =>
        match f w' with
        | (Returned _, w'') => (o, w'')
        | (Thrown e, w'') => (Thrown e, w'')
        end
    end.

(** [if (b) { c }] *)
Definition when (b : bool) (c : M unit) : M unit := if b then c else ret tt.

Declare Scope js_scope.
Delimit Scope js_scope with js.
Notation "x <- c ;; k" := (bind c (fun x => k))
  (at level 100, c at next level, right associativity) : js_scope.
Notation "c ;; k" := (bind c (fun _ => k))
  (at level 100, right associativity) : js_scope.
Open Scope js_scope.

(** ** The platform: what the service is given at run time *)

Record Platform : Type := mkPlatform {
  (** [Math.log10], an implementation-approximated function *)
  Math_log10 : float -> float;
  (** [Number::toString] where it is not an integer up to 2^53 (see
      [JsNumber]) *)
  Number_toString_shortest : float -> string;
  (** [process.env] *)
  env : string -> option string;
  (** [new Date(t).getFullYear()] and [.getMonth()], in the local time zone *)
  Date_getFullYear : Z -> float;
  Date_getMonth : Z -> float;
  (** [child_process.execSync(cmd, {timeout, env: {LD_LIBRARY_PATH}})]:
      the child runs to its end or to the timeout and may change the world;
      it returns its standard output, or fails *)
  run_child : string -> Z -> string -> World -> (ExecFailure + string) * World;
  (** a file-system call may fail for a reason outside the model (access
      rights, a full disk, a missing parent directory, ...): the reason,
      when it does *)
  fs_fault : FsCall -> World -> option string
}.

Section Service.

Context (pf : Platform).

(** *** Node built-ins *)

(** [fs.existsSync(p)] never throws. *)
Definition existsSync (p : string) : M bool :=
  fun w => (Returned (bool_decide (is_Some (nodes w !! p))), w).

Definition fs_call {A} (c : FsCall) (k : M A) : M A :=
  fun w =>
    match fs_fault pf c w with
    | Some reason => (Thrown (SystemError c reason), w)
    | None => k w
    end.

Definition ENOENT : string := "ENOENT: no such file or directory".
Definition EISDIR : string := "EISDIR: illegal operation on a directory".
Definition ENOTDIR : string := "ENOTDIR: not a directory".
Definition EEXIST : string := "EEXIST: file already exists".

(** [fs.readFileSync(p, 'utf8')]: a directory opens, and it is the read
    that fails. *)
Definition readFileSync (p : string) : M string :=
  fs_call (readFile_call p) (fun w =>
    match nodes w !! p with
    | Some (File content) => (Returned content, w)
    | Some Dir => (Thrown (SystemError read_call EISDIR), w)
    | None => (Thrown (SystemError (readFile_call p) ENOENT), w)
    end).

(** [fs.writeFileSync(p, data)] *)
Definition writeFileSync (p data : string) : M unit :=
  fs_call (writeFile_call p) (fun w =>
    match nodes w !! p with
    | Some Dir => (Thrown (SystemError (writeFile_call p) EISDIR), w)
    | _ => (Returned tt, with_nodes (insert p (File data)) w)
    end).

(** [fs.unlinkSync(p)] *)
Definition unlinkSync (p : string) : M unit :=
  fs_call (unlink_call p) (fun w =>
    match nodes w !! p with
    | Some (File _) => (Returned tt, with_nodes (delete p) w)
    | Some Dir => (Thrown (SystemError (unlink_call p) EISDIR), w)
    | None => (Thrown (SystemError (unlink_call p) ENOENT), w)
    end).

(** [fs.statSync(p)]; of the result only [size] is kept. *)
Definition statSync (p : string) : M nat :=
  fs_call (stat_call p) (fun w =>
    match nodes w !! p with
    | Some (File content) => (Returned (String.length content), w)
    | Some Dir => (Returned 0%nat, w)
    | None => (Thrown (SystemError (stat_call p) ENOENT), w)
    end).

(** [fs.readdirSync(p)]; the listing is only ever logged, so the model
    keeps whether the call succeeds. *)
Definition readdirSync (p : string) : M unit :=
  fs_call (readdir_call p) (fun w =>
    match nodes w !! p with
    | Some Dir => (Returned tt, w)
    | Some (File _) => (Thrown (SystemError (readdir_call p) ENOTDIR), w)
    | None => (Thrown (SystemError (readdir_call p) ENOENT), w)
    end).

(** The directories above an absolute path: [/a] and [/a/b] for [/a/b/c]. *)
Fixpoint parents_from (prefix : string) (segments : list string) : list string :=
  match segments with
  | segment :: (_ :: _) as rest =>
      let dir := prefix ++ "/" ++ segment in
      dir :: parents_from dir rest
  | _ => []
  end.

Definition parent_dirs (p : string) : list string :=
  match split "/" p with
  | "" :: segments => parents_from "" segments
  | _ => []
  end.

Definition is_file (w : World) (p : string) : bool :=
  match nodes w !! p with
  | Some (File _) => true
  | _ => false
  end.

(** Make a directory where nothing is; what is there stays. *)
Definition make_dir (d : string) (m : gmap string Node) : gmap string Node :=
  match m !! d with
  | Some _ => m
  | None => <[d := Dir]> m
  end.

(** [fs.mkdirSync(p, { recursive: true })]: the directories above [p] that
    are missing are made too, and a directory that is there already is no
    error. *)
Definition mkdirSync (p : string) : M unit :=
  fs_call (mkdir_call p) (fun w =>
    if existsb (is_file w) (parent_dirs p) then
      (Thrown (SystemError (mkdir_call p) ENOTDIR), w)
    else
      match nodes w !! p with
      | Some (File _) => (Thrown (SystemError (mkdir_call p) EEXIST), w)
      | _ => (Returned tt, with_nodes (fun m => foldr make_dir m (p :: parent_dirs p)) w)
      end).

(** [Date.now()] *)
Definition Date_now : M Z := fun w => (Returned (clock w), w).

(** [new Date().getUTCHours()]: the hour of the day of the time value. *)
Definition getUTCHours (t : Z) : float := of_Z ((t / 3600000) mod 24).

(** [crypto.randomBytes(8).toString('hex')] *)
Definition randomHex : M string :=
  fun w =>
    match entropy w with
    | tok :: rest =>
        (Returned tok, {| nodes := nodes w; clock := clock w; entropy := rest |})
    | [] => (Returned "0000000000000000", w)
    end.

(** [execSync(cmd, { timeout, encoding: 'utf8', env })] *)
Definition execSync (cmd : string) (timeout : Z) (ld_library_path : string) : M string :=
  fun w =>
    match run_child pf cmd timeout ld_library_path w with
    | (inr out, w') => (Returned out, w')
    | (inl failure, w') => (Thrown (ChildProcessError failure), w')
    end.

(** [process.env.NAME || fallback] *)
Definition env_or (name fallback : string) : string :=
  match env pf name with
  | Some v => if JsString.truthy v then v else fallback
  | None => fallback
  end.

(** *** Configuration (lines 23-53) *)

Definition ITURHFPROP_PATH : string :=
  env_or "ITURHFPROP_PATH" "/opt/iturhfprop/ITURHFProp".

Definition ITURHFPROP_DATA : string :=
  env_or "ITURHFPROP_DATA" "/opt/iturhfprop".

Definition TEMP_DIR : string := "/tmp/iturhfprop".

(** [Object.entries(HF_BANDS)], in insertion order; [Object.values] is its
    second projection. *)
Definition HF_BANDS : list (string * float) :=
  [ ("160m", 2.0%float); ("80m", 3.5%float); ("60m", 5.3%float);
    ("40m", 7.1%float); ("30m", 10.1%float); ("20m", 14.1%float);
    ("17m", 18.1%float); ("15m", 21.1%float); ("12m", 24.9%float);
    ("11m", 27.0%float); ("10m", 28.1%float) ].

(** *** The request: the [params] object *)

Record Params : Type := mkParams {
  txLat : float;
  txLon : float;
  rxLat : float;
  rxLon : float;
  year : float;
  month : float;
  hour : float;
  (** the fields below may be absent ([undefined]) and then take the
      defaults of [generateInputFile] *)
  ssn : option float;
  txPower : option float;
  frequencies : option (list float);
  manMadeNoise : option string;
  requiredReliability : option float;
  requiredSNR : option float
}.

Definition str : float -> string := Number_toString (Number_toString_shortest pf).
Definition fixed : nat -> float -> string := toFixed (Number_toString_shortest pf).

(** A list of lines as one text, each line ended by a line feed. *)
Fixpoint unlines (ls : list string) : string :=
  match ls with
  | [] => EmptyString
  | l :: rest => l ++ nl ++ unlines rest
  end.

Definition quoted (s : string) : string := dquote ++ s ++ dquote.

(** The [Path.hour] value: hour 0 is written 24, a missing hour 12. *)
Definition path_hour (hour : float) : float :=
  if isNaN hour then 12%float
  else if PrimFloat.eqb hour 0%float then 24%float else hour.

(** The [Path.txpower] value: watts as dB relative to 1 kW. *)
Definition path_txpower (txPower : float) : float :=
  (10 * Math_log10 pf (txPower / 1000))%float.

(** [generateInputFile(params)] (lines 58-120).  The template literal is
    given line by line.  The four [...Str] constants of lines 73-76 are
    computed and never used; they are left out. *)
Definition generateInputFile (params : Params) : string :=
  let ssn := default 100%float (ssn params) in
  let txPower := default 100%float (txPower params) in
  let frequencies := default (map snd HF_BANDS) (frequencies params) in
  let manMadeNoise := default "RESIDENTIAL" (manMadeNoise params) in
  let requiredReliability := default 90%float (requiredReliability params) in
  let requiredSNR := default 15%float (requiredSNR params) in
  let freqList := join ", " (map (fixed 3) frequencies) in
  unlines
    [ "PathName " ++ quoted "OpenHamClock";
      "PathTXName " ++ quoted "TX";
      "Path.L_tx.lat " ++ fixed 4 (txLat params);
      "Path.L_tx.lng " ++ fixed 4 (txLon params);
      "TXAntFilePath " ++ quoted "ISOTROPIC";
      "TXGOS 0.0";
      "PathRXName " ++ quoted "RX";
      "Path.L_rx.lat " ++ fixed 4 (rxLat params);
      "Path.L_rx.lng " ++ fixed 4 (rxLon params);
      "RXAntFilePath " ++ quoted "ISOTROPIC";
      "RXGOS 0.0";
      "AntennaOrientation " ++ quoted "TX2RX";
      "Path.year " ++ str (year params);
      "Path.month " ++ str (month params);
      "Path.hour " ++ str (path_hour (hour params));
      "Path.SSN " ++ str ssn;
      "Path.frequency " ++ freqList;
      "Path.txpower " ++ fixed 1 (path_txpower txPower);
      "Path.BW 3000";
      "Path.SNRr " ++ str requiredSNR;
      "Path.SNRXXp " ++ str requiredReliability;
      "Path.ManMadeNoise " ++ quoted manMadeNoise;
      "Path.Modulation ANALOG";
      "Path.SorL SHORTPATH";
      "LL.lat " ++ fixed 4 (rxLat params);
      "LL.lng " ++ fixed 4 (rxLon params);
      "LR.lat " ++ fixed 4 (rxLat params);
      "LR.lng " ++ fixed 4 (rxLon params);
      "UL.lat " ++ fixed 4 (rxLat params);
      "UL.lng " ++ fixed 4 (rxLon params);
      "UR.lat " ++ fixed 4 (rxLat params);
      "UR.lng " ++ fixed 4 (rxLon params);
      "DataFilePath " ++ quoted (ITURHFPROP_DATA ++ "/Data/");
      "RptFilePath " ++ quoted "/tmp/";
      "RptFileFormat " ++ quoted "RPT_PR | RPT_SNR | RPT_BCR" ].

(** *** The report parser *)

(** One parsed data row of the report. *)
Record FreqResult : Type := mkFreqResult {
  freq : float;
  sdbw : float;
  snr : float;
  reliability : float
}.

(** The [params] field [runPrediction] adds to its result. *)
Record ParamsEcho : Type := mkParamsEcho {
  echo_txLat : float;
  echo_txLon : float;
  echo_rxLat : float;
  echo_rxLon : float;
  echo_hour : float;
  echo_month : float;
  echo_ssn : option float
}.

(** The object [parseOutputFile] returns and [runPrediction] completes; an
    absent field is [None]. *)
Record Results : Type := mkResults {
  error : option string;
  result_frequencies : list FreqResult;
  raw : option string;
  muf : option float;
  elapsed : option Z;
  execStdout : option string;
  execStderr : option string;
  inputContent : option string;
  result_params : option ParamsEcho
}.

(** How one turn of the [for (const line of lines)] loop ends: with the
    next turn ([continue], or the end of the body), or out of the loop
    ([break]). *)
Inductive Flow : Type :=
| Next (inDataSection : bool) (frequencies : list FreqResult)
| Break.

(** The body of the loop (lines 138-174), from the loop's two variables
    and the line. *)
Definition parse_line (inDataSection : bool) (frequencies : list FreqResult)
    (line : string) : Flow :=
  let trimmed := trim line in
  if includes trimmed "Calculated Parameters" && negb (includes trimmed "End") then
    Next true frequencies
  else if (includes trimmed "End Calculated" || includes trimmed "*****")
          && (inDataSection && (0 <? length frequencies)%nat) then
    Break
  else if inDataSection && JsString.truthy trimmed
          && negb (startsWith trimmed "*") && negb (startsWith trimmed "-") then
    let parts := map trim (split "," trimmed) in
    if (6 <=? length parts)%nat then
      let freq := parseFloat_opt (parts !! 2%nat) in
      let pr := parseFloat_opt (parts !! 3%nat) in
      let snr := parseFloat_opt (parts !! 4%nat) in
      let bcr := parseFloat_opt (parts !! 5%nat) in
      if negb (isNaN freq) && PrimFloat.ltb 0%float freq then
        Next inDataSection
          (frequencies ++
             [ {| freq := freq; sdbw := pr; snr := snr; reliability := bcr |} ])
      else Next inDataSection frequencies
    else Next inDataSection frequencies
  else Next inDataSection frequencies.

(** The loop over the lines: [results.frequencies] when it is left. *)
Fixpoint scan_lines (lines : list string) (inDataSection : bool)
    (frequencies : list FreqResult) : list FreqResult :=
  match lines with
  | [] => frequencies
  | line :: rest =>
      match parse_line inDataSection frequencies line with
      | Next inDataSection' frequencies' => scan_lines rest inDataSection' frequencies'
      | Break => frequencies
      end
  end.

Fixpoint skip_space (s : string) : string :=
  match s with
  | String c s' => if is_white_space c then skip_space s' else s
  | EmptyString => EmptyString
  end.

(** The longest run of digits and dots in front of [s]. *)
Fixpoint digits_dots (s : string) : string :=
  match s with
  | String c s' =>
      if (match digit_val c with Some _ => true | None => false end) || Ascii.eqb c "."
      then String c (digits_dots s')
      else EmptyString
  | EmptyString => EmptyString
  end.

(** After the keyword: [\s*[:=]?\s*([\d.]+)], the captured group.  The
    three character classes are disjoint, so the greedy match is the only
    one. *)
Definition muf_value (s : string) : option string :=
  let s1 := skip_space s in
  let s2 := match s1 with
            | String c r => if Ascii.eqb c ":" || Ascii.eqb c "=" then r else s1
            | EmptyString => s1
            end in
  let g := digits_dots (skip_space s2) in
  if JsString.truthy g then Some g else None.

(** A match of the pattern that starts at the front of [s]; the three
    keywords are tried in the order of the alternation. *)
Definition muf_here (s : string) : option string :=
  match strip_prefix_ci "BMUF" s ≫= muf_value with
  | Some g => Some g
  | None =>
      match strip_prefix_ci "MUF" s ≫= muf_value with
      | Some g => Some g
      | None => strip_prefix_ci "Operational MUF" s ≫= muf_value
      end
  end.

(** [output.match(/(?:BMUF|MUF|Operational MUF)\s*[:=]?\s*([\d.]+)/i)]:
    group 1 of the leftmost match. *)
Fixpoint muf_match (output : string) : option string :=
  match muf_here output with
  | Some g => Some g
  | None =>
      match output with
      | String _ rest => muf_match rest
      | EmptyString => None
      end
  end.

(** The [try] block of [parseOutputFile], after the file is read. *)
Definition parse_report (output : string) : Results :=
  {| error := None;
     result_frequencies := scan_lines (split LF output) false [];
     raw := Some (substring0 3000 output);
     muf := parseFloat <$> muf_match output;
     elapsed := None; execStdout := None; execStderr := None;
     inputContent := None; result_params := None |}.

(** What the [catch] block of [parseOutputFile] returns. *)
Definition parse_failure (err : Error) : Results :=
  {| error := Some (message err);
     result_frequencies := [];
     raw := None; muf := None;
     elapsed := None; execStdout := None; execStderr := None;
     inputContent := None; result_params := None |}.

(** [parseOutputFile(outputPath)] (lines 125-189) *)
Definition parseOutputFile (outputPath : string) : M Results :=
  try_catch
    (output <- readFileSync outputPath ;;
     ret (parse_report output))
    (fun err => ret (parse_failure err)).

(** *** The engine runner *)

(** [path.join(TEMP_DIR, `input_${id}.txt`)] and its output twin. *)
Definition input_path (id : string) : string := TEMP_DIR ++ "/input_" ++ id ++ ".txt".
Definition output_path (id : string) : string := TEMP_DIR ++ "/output_" ++ id ++ ".txt".

(** Lines 257-269: the diagnostics added to the parsed result. *)
Definition with_diagnostics (results : Results) (elapsed : Z)
    (execStdout execStderr inputContent : string) (params : Params) : Results :=
  {| error := error results;
     result_frequencies := result_frequencies results;
     raw := raw results;
     muf := muf results;
     elapsed := Some elapsed;
     execStdout := Some execStdout;
     execStderr := Some execStderr;
     inputContent := Some inputContent;
     result_params :=
       Some {| echo_txLat := txLat params; echo_txLon := txLon params;
               echo_rxLat := rxLat params; echo_rxLon := rxLon params;
               echo_hour := hour params; echo_month := month params;
               echo_ssn := ssn params |} |}.

(** The inner [try]/[catch] around [execSync] (lines 221-237): the pair
    [(execStdout, execStderr)] afterwards. *)
Definition run_engine (cmd : string) : M (string * string) :=
  try_catch
    (out <- execSync cmd 30000 ("/opt/iturhfprop:" ++ env_or "LD_LIBRARY_PATH" "") ;;
     ret (out, ""))
    (fun execError => ret (error_stdout execError, error_stderr execError)).

(** Lines 242-253: the look at the output file before it is parsed.  What
    is read is only logged; the calls themselves can throw. *)
Definition check_output (outputPath : string) : M unit :=
  found <- existsSync outputPath ;;
  if found then
    _ <- readFileSync outputPath ;;
    _ <- statSync outputPath ;;
    ret tt
  else readdirSync "/tmp".

(** The outer [try] block of [runPrediction] (lines 208-271). *)
Definition try_block (params : Params) (inputPath outputPath : string) : M Results :=
  let inputContent := generateInputFile params in
  writeFileSync inputPath inputContent ;;
  startTime <- Date_now ;;
  let cmd := ITURHFPROP_PATH ++ " " ++ inputPath ++ " " ++ outputPath in
  io <- run_engine cmd ;;
  endTime <- Date_now ;;
  let elapsed := endTime - startTime in
  check_output outputPath ;;
  results <- parseOutputFile outputPath ;;
  ret (with_diagnostics results elapsed (fst io) (snd io) inputContent params).

(** [if (fs.existsSync(p)) fs.unlinkSync(p);] *)
Definition unlink_if_exists (p : string) : M unit :=
  found <- existsSync p ;;
  when found (unlinkSync p).

(** The [try] block inside [finally] (lines 276-277). *)
Definition cleanup_block (inputPath outputPath : string) : M unit :=
  unlink_if_exists inputPath ;;
  unlink_if_exists outputPath.

(** The [finally] block (lines 273-281): cleanup errors are ignored. *)
Definition cleanup (inputPath outputPath : string) : M unit :=
  try_catch (cleanup_block inputPath outputPath) (fun _ => ret tt).

(** Lines 199-202. *)
Definition ensure_temp_dir : M unit :=
  found <- existsSync TEMP_DIR ;;
  when (negb found) (mkdirSync TEMP_DIR).

(** [runPrediction(params)] (lines 194-282) *)
Definition runPrediction (params : Params) : M Results :=
  id <- randomHex ;;
  let inputPath := input_path id in
  let outputPath := output_path id in
  ensure_temp_dir ;;
  try_finally (try_block params inputPath outputPath) (cleanup inputPath outputPath).

(** *** The endpoints *)

(** [req.query], with string values. *)
Definition Query : Type := gmap string string.

(** [!v] for a query value: absent or empty. *)
Definition absent (v : option string) : bool :=
  match v with Some s => negb (JsString.truthy s) | None => true end.

Definition missing_coordinates (query : Query) : bool :=
  absent (query !! "txLat") || absent (query !! "txLon")
  || absent (query !! "rxLat") || absent (query !! "rxLon").

(** [parseInt(hour) || new Date().getUTCHours() || 12] (lines 489, 602) *)
Definition request_hour (hour : option string) (now : Z) : float :=
  or_else (or_else (parseInt_opt hour) (getUTCHours now)) 12%float.

(** [parseInt(month) || new Date().getMonth() + 1] *)
Definition request_month (month : option string) (now : Z) : float :=
  or_else (parseInt_opt month) (Date_getMonth pf now + 1)%float.

(** [parseInt(year)], where [year] defaults to [new Date().getFullYear()]. *)
Definition request_year (year : option string) (now : Z) : float :=
  match year with
  | Some y => parseInt y
  | None => parseInt (str (Date_getFullYear pf now))
  end.

(** The [params] object of [GET /api/predict] (lines 482-496). *)
Definition predict_params (query : Query) (now : Z) : Params :=
  {| txLat := parseFloat_opt (query !! "txLat");
     txLon := parseFloat_opt (query !! "txLon");
     rxLat := parseFloat_opt (query !! "rxLat");
     rxLon := parseFloat_opt (query !! "rxLon");
     year := request_year (query !! "year") now;
     month := request_month (query !! "month") now;
     hour := request_hour (query !! "hour") now;
     ssn := Some (or_else (parseInt_opt (query !! "ssn")) 100%float);
     txPower := Some (or_else (parseInt_opt (query !! "txPower")) 100%float);
     frequencies :=
       match query !! "frequencies" with
       | Some f => if JsString.truthy f then Some (map parseFloat (split "," f)) else None
       | None => None
       end;
     manMadeNoise := None; requiredReliability := None; requiredSNR := None |}.

(** [{ ...baseParams, hour }] of [GET /api/predict/hourly] (lines 530-544). *)
Definition hourly_params (query : Query) (now : Z) (hour : float) : Params :=
  {| txLat := parseFloat_opt (query !! "txLat");
     txLon := parseFloat_opt (query !! "txLon");
     rxLat := parseFloat_opt (query !! "rxLat");
     rxLon := parseFloat_opt (query !! "rxLon");
     year := request_year (query !! "year") now;
     month := request_month (query !! "month") now;
     hour := hour;
     ssn := Some (or_else (parseInt_opt (query !! "ssn")) 100%float);
     txPower := None; frequencies := None;
     manMadeNoise := None; requiredReliability := None; requiredSNR := None |}.

(** The [params] object of [GET /api/bands] (lines 595-605). *)
Definition bands_params (query : Query) (now : Z) : Params :=
  {| txLat := parseFloat_opt (query !! "txLat");
     txLon := parseFloat_opt (query !! "txLon");
     rxLat := parseFloat_opt (query !! "rxLat");
     rxLon := parseFloat_opt (query !! "rxLon");
     year := Date_getFullYear pf now;
     month := request_month (query !! "month") now;
     hour := request_hour (query !! "hour") now;
     ssn := Some (or_else (parseInt_opt (query !! "ssn")) 100%float);
     txPower := None;
     frequencies := Some (map snd HF_BANDS);
     manMadeNoise := None; requiredReliability := None; requiredSNR := None |}.

(** One element of [hourlyResults]: [{ hour, muf, frequencies }] or
    [{ hour, error }]. *)
Inductive HourEntry : Type :=
| HourResult (hour : Z) (muf : option float) (frequencies : list FreqResult)
| HourError (hour : Z) (error : string).

Definition entry_hour (e : HourEntry) : Z :=
  match e with HourResult h _ _ => h | HourError h _ => h end.

(** The body of the hourly loop (lines 544-557): the element it pushes. *)
Definition hourly_turn (params_at : float -> Params) (hour : Z) : M HourEntry :=
  try_catch
    (result <- runPrediction (params_at (of_Z hour)) ;;
     ret (HourResult hour (muf result) (result_frequencies result)))
    (fun err => ret (HourError hour (message err))).

(** [for (let hour = ...; hour < 24; hour++)] with [turns] turns to go
    (lines 543-558): [hourlyResults] at the end. *)
Fixpoint hourly_loop (params_at : float -> Params) (hour : Z) (turns : nat)
    (hourlyResults : list HourEntry) : M (list HourEntry) :=
  match turns with
  | O => ret hourlyResults
  | S turns' =>
      entry <- hourly_turn params_at hour ;;
      hourly_loop params_at (hour + 1) turns' (hourlyResults ++ [entry])
  end.

(** Lines 541-558: the loop from hour 0. *)
Definition hourly_results (params_at : float -> Params) : M (list HourEntry) :=
  hourly_loop params_at 0 24 [].

(** One value of the [bands] object (lines 620-627). *)
Record BandInfo : Type := mkBandInfo {
  band_freq : float;
  band_reliability : float;
  band_snr : float;
  band_sdbw : float;
  band_status : string
}.

(** Lines 625-626. *)
Definition status_of (reliability : float) : string :=
  if PrimFloat.leb 70%float reliability then "GOOD"
  else if PrimFloat.leb 40%float reliability then "FAIR"
  else "POOR".

Definition band_info (freqResult : FreqResult) : BandInfo :=
  {| band_freq := freq freqResult;
     band_reliability := reliability freqResult;
     band_snr := snr freqResult;
     band_sdbw := sdbw freqResult;
     band_status := status_of (reliability freqResult) |}.

(** [Math.abs(freq - freqResult.freq) < 1] *)
Definition within_1MHz (band_nominal result_freq : float) : bool :=
  PrimFloat.ltb (PrimFloat.abs (band_nominal - result_freq)) 1%float.

(** [bandFreqs.find(([name, freq]) => ...)] (lines 614-616) *)
Definition find_band (bandFreqs : list (string * float)) (freqResult : FreqResult)
    : option (string * float) :=
  List.find (fun entry => within_1MHz (snd entry) (freq freqResult)) bandFreqs.

(** One turn of the loop of lines 613-629, from [bands]. *)
Definition assign_band (bandFreqs : list (string * float))
    (bands : gmap string BandInfo) (freqResult : FreqResult) : gmap string BandInfo :=
  match find_band bandFreqs freqResult with
  | Some bandEntry => <[ fst bandEntry := band_info freqResult ]> bands
  | None => bands
  end.

(** Lines 610-629: the [bands] object, by band name. *)
Definition map_bands (bandFreqs : list (string * float))
    (frequencies : list FreqResult) : gmap string BandInfo :=
  fold_left (assign_band bandFreqs) frequencies ∅.

(** What an endpoint answers: the status and the fields of the JSON body
    that depend on the prediction. *)
Inductive Body : Type :=
| ErrorBody (error : string)
| PredictBody (results : Results)
| HourlyBody (hourly : list HourEntry)
| BandsBody (muf : option float) (bands : gmap string BandInfo) (debug : Results).

Record Response : Type := mkResponse {
  statusCode : Z;
  body : Body
}.

(** [GET /api/predict] (lines 468-510) *)
Definition api_predict (query : Query) : M Response :=
  try_catch
    (if missing_coordinates query then
       ret {| statusCode := 400;
              body := ErrorBody "Missing required coordinates (txLat, txLon, rxLat, rxLon)" |}
     else
       now <- Date_now ;;
       results <- runPrediction (predict_params query now) ;;
       ret {| statusCode := 200; body := PredictBody results |})
    (fun err => ret {| statusCode := 500; body := ErrorBody (message err) |}).

(** [GET /api/predict/hourly] (lines 517-577) *)
Definition api_predict_hourly (query : Query) : M Response :=
  try_catch
    (if missing_coordinates query then
       ret {| statusCode := 400;
              body := ErrorBody "Missing required coordinates (txLat, txLon, rxLat, rxLon)" |}
     else
       now <- Date_now ;;
       hourlyResults <- hourly_results (hourly_params query now) ;;
       ret {| statusCode := 200; body := HourlyBody hourlyResults |})
    (fun err => ret {| statusCode := 500; body := ErrorBody (message err) |}).

(** [GET /api/bands] (lines 584-650) *)
Definition api_bands (query : Query) : M Response :=
  try_catch
    (if missing_coordinates query then
       ret {| statusCode := 400; body := ErrorBody "Missing required coordinates" |}
     else
       now <- Date_now ;;
       results <- runPrediction (bands_params query now) ;;
       let bands := map_bands HF_BANDS (result_frequencies results) in
       ret {| statusCode := 200; body := BandsBody (muf results) bands results |})
    (fun err => ret {| statusCode := 500; body := ErrorBody (message err) |}).

End Service.

Arguments Next inDataSection frequencies : clear implicits.

(** ** Vocabulary of the statements *)

(** A header line of the table, after trimming (line 141). *)
Definition is_header (trimmed : string) : bool :=
  includes trimmed "Calculated Parameters" && negb (includes trimmed "End").

(** A boundary marker, after trimming (line 147). *)
Definition is_boundary (trimmed : string) : bool :=
  includes trimmed "End Calculated" || includes trimmed "*****".

(** The trimmed comma-separated fields of a line. *)
Definition row_fields (line : string) : list string :=
  map trim (split "," (trim line)).

(** The record a data row stands for: fields 2 to 5, each through
    [parseFloat]. *)
Definition row_record (line : string) : FreqResult :=
  {| freq := parseFloat_opt (row_fields line !! 2%nat);
     sdbw := parseFloat_opt (row_fields line !! 3%nat);
     snr := parseFloat_opt (row_fields line !! 4%nat);
     reliability := parseFloat_opt (row_fields line !! 5%nat) |}.

(** The guard of line 164 on a frequency. *)
Definition accepted_freq (f : float) : bool :=
  negb (isNaN f) && PrimFloat.ltb 0%float f.

(** A well-formed data row: not a header, not a boundary marker, not a
    separator line, at least 6 comma-separated fields, and a frequency the
    guard accepts. *)
Definition well_formed_row (line : string) : bool :=
  negb (is_header (trim line)) && negb (is_boundary (trim line))
  && negb (startsWith (trim line) "*") && negb (startsWith (trim line) "-")
  && (6 <=? length (row_fields line))%nat
  && accepted_freq (freq (row_record line)).

(** A line with the shape of a data row, whatever its frequency: not a
    header, not a boundary marker, not a separator line, and at least 6
    comma-separated fields. *)
Definition data_shaped (line : string) : bool :=
  negb (is_header (trim line)) && negb (is_boundary (trim line))
  && negb (startsWith (trim line) "*") && negb (startsWith (trim line) "-")
  && (6 <=? length (row_fields line))%nat.

(** Where a record of the result comes from: a line of the report, whose
    frequency field passed the guard. *)
Definition row_of (lines : list string) (x : FreqResult) : Prop :=
  exists line, In line lines /\ x = row_record line /\ accepted_freq (freq x) = true.

(** A finite number: neither NaN nor an infinity. *)
Definition is_finite (x : float) : bool :=
  negb (PrimFloat.is_nan x) && negb (PrimFloat.is_infinity x).

(** The [k] numbers above and the [k] numbers below [c], with [c]. *)
Fixpoint steps (k : nat) (next : float -> float) (c : float) : list float :=
  match k with
  | O => []
  | S k' => next c :: steps k' next (next c)
  end.

Definition within_ulps (k : nat) (c x : float) : Prop :=
  In x (c :: steps k PrimFloat.next_up c ++ steps k PrimFloat.next_down c).

(** The id the next call of [runPrediction] draws. *)
Definition next_id (w : World) : string :=
  match entropy w with tok :: _ => tok | [] => "0000000000000000" end.

(** Nothing is recorded below a scratch directory that does not exist. *)
Definition scratch_consistent (w : World) : Prop :=
  nodes w !! TEMP_DIR = None ->
  forall id, nodes w !! input_path id = None /\ nodes w !! output_path id = None.

(** In the run of [runPrediction params] from [w], the [try] block inside
    [finally] completes: neither [unlinkSync] call throws. *)
Definition cleanup_completes (pf : Platform) (params : Params) (w : World) : Prop :=
  match ensure_temp_dir pf (snd (randomHex w)) with
  | (Returned _, w0) =>
      let ip := input_path (next_id w) in
      let op := output_path (next_id w) in
      fst (cleanup_block pf ip op (snd (try_block pf params ip op w0))) = Returned tt
  | (Thrown _, _) => True
  end.

(** A computation that throws nothing but file-system errors. *)
Definition throws_only_fs {A} (c : M A) : Prop :=
  forall w e w', c w = (Thrown e, w') -> is_fs_error e = true.

(** A computation that leaves the world as it found it. *)
Definition keeps_world {A} (c : M A) : Prop :=
  forall w, snd (c w) = w.

(** The integers [lo], [lo + 1], ... ([n] of them). *)
Fixpoint Zseq (lo : Z) (n : nat) : list Z :=
  match n with
  | O => []
  | S n' => lo :: Zseq (lo + 1) n'
  end.

(** The world in which the hourly loop, started at [hour] in [w], runs its
    turn number [k]. *)
Fixpoint world_at (pf : Platform) (params_at : float -> Params) (hour : Z)
    (w : World) (k : nat) : World :=
  match k with
  | O => w
  | S k' =>
      world_at pf params_at (hour + 1)
        (snd (runPrediction pf (params_at (of_Z hour)) w)) k'
  end.

(** The entry an hour gets from the outcome of its own prediction. *)
Definition entry_of (hour : Z) (o : Outcome Results) : HourEntry :=
  match o with
  | Returned result => HourResult hour (muf result) (result_frequencies result)
  | Thrown err => HourError hour (message err)
  end.

(** The entry of turn number [i] of the hourly loop started at hour 0 in
    [w]: that of the prediction for hour [i], run in the world the turns
    before it left. *)
Definition entry_at (pf : Platform) (params_at : float -> Params) (w : World)
    (i : nat) : HourEntry :=
  entry_of (Z.of_nat i)
    (fst (runPrediction pf (params_at (of_Z (Z.of_nat i))) (world_at pf params_at 0 w i))).

Definition is_hour_error (e : HourEntry) : bool :=
  match e with HourError _ _ => true | HourResult _ _ _ => false end.

Definition entry_rows (e : HourEntry) : nat :=
  match e with HourError _ _ => 0%nat | HourResult _ _ rows => length rows end.

(** The reading of the band mapping that goes band by band: the first
    result entry within 1 MHz of the band's nominal frequency. *)
Definition first_within (nominal : float) (frequencies : list FreqResult)
    : option FreqResult :=
  List.find (fun r => within_1MHz nominal (freq r)) frequencies.

Definition map_bands_by_band (bandFreqs : list (string * float))
    (frequencies : list FreqResult) (name : string) : option BandInfo :=
  match List.find (fun entry => String.eqb (fst entry) name) bandFreqs with
  | Some entry => band_info <$> first_within (snd entry) frequencies
  | None => None
  end.

(** The result entries assigned to the band [name]. *)
Definition assigned_to (bandFreqs : list (string * float)) (name : string)
    (frequencies : list FreqResult) : list FreqResult :=
  List.filter
    (fun r => match find_band bandFreqs r with
              | Some entry => String.eqb (fst entry) name
              | None => false
              end)
    frequencies.

(** ** Test doubles *)

Module Demo.

(** [Math.log10] on the powers of ten from 0.001 to 1000, NaN elsewhere. *)
Definition log10_table (x : float) : float :=
  let entries :=
    [ (0.001, -3); (0.01, -2); (0.1, -1); (1, 0); (10, 1); (100, 2); (1000, 3) ]%float in
  match List.find (fun e => PrimFloat.eqb (fst e) x) entries with
  | Some e => snd e
  | None => nan
  end.

(** The second and third words of the engine's command line. *)
Definition command_paths (cmd : string) : string * string :=
  match split " " cmd with
  | _ :: i :: o :: _ => (i, o)
  | _ => ("", "")
  end.

(** An engine that takes 1500 ms, writes [report] to its output path when
    there is one, and ends as [ending] says. *)
Definition engine (report : option string) (ending : ExecFailure + string)
    (cmd : string) (timeout : Z) (ld_library_path : string) (w : World)
    : (ExecFailure + string) * World :=
  (ending,
   {| nodes := match report with
               | Some text => <[ snd (command_paths cmd) := File text ]> (nodes w)
               | None => nodes w
               end;
      clock := clock w + 1500;
      entropy := entropy w |}).

Definition exit_1 : ExecFailure :=
  {| status := Some 1; stdout := Some "partial"; stderr := Some "p533 failed";
     exec_message := "Command failed" |}.

Definition platform (report : option string) (ending : ExecFailure + string)
    (fault : FsCall -> World -> option string) : Platform :=
  {| Math_log10 := log10_table;
     Number_toString_shortest := fun _ => "";
     env := fun _ => None;
     Date_getFullYear := fun _ => 2025%float;
     Date_getMonth := fun _ => 5%float;
     run_child := engine report ending;
     fs_fault := fault |}.

Definition no_fault : FsCall -> World -> option string := fun _ _ => None.

(** The report of a run over three frequencies. *)
Definition report : string :=
  unlines
    [ "ITURHFProp report";
      "BMUF = 21.47";
      "*********************** Calculated Parameters ***********************";
      "02, 05,    7.100,-120.29, -16.04,   0.00";
      "02, 05,   14.100, -98.50,  22.10,  80.00";
      "02, 05,   28.100,-101.75,  12.30,  39.99";
      "*********************** End Calculated Parameters *******************";
      "02, 05,   99.000,   0.00,   0.00,   0.00" ].

(** The same table with a frequency field that parses to an infinity. *)
Definition report_infinite : string :=
  unlines
    [ "Calculated Parameters";
      "02, 05,    7.100,-120.29, -16.04,   0.00";
      "02, 05, Infinity, -98.50,  22.10,  80.00";
      "02, 05,   28.100,-101.75,  12.30,  39.99";
      "End Calculated Parameters" ].

Definition params : Params :=
  {| txLat := 40.7128%float; txLon := (-74.006)%float;
     rxLat := 51.5074%float; rxLon := (-0.1278)%float;
     year := 2025%float; month := 6%float; hour := 0%float;
     ssn := Some 100%float; txPower := Some 100%float; frequencies := None;
     manMadeNoise := None; requiredReliability := None; requiredSNR := None |}.

(** A world with the scratch directory in place. *)
Definition world (tokens : list string) : World :=
  {| nodes := {[ "/tmp" := Dir; "/tmp/iturhfprop" := Dir ]};
     clock := 1750000000000;
     entropy := tokens |}.

(** The unlink of one path is refused. *)
Definition unlink_refused (path : string) : FsCall -> World -> option string :=
  fun c _ =>
    match c with
    | unlink_call p => if String.eqb p path then Some "EPERM: operation not permitted" else None
    | _ => None
    end.

(** Writing the input file of the given ids is refused. *)
Definition write_refused (ids : list string) : FsCall -> World -> option string :=
  fun c _ =>
    match c with
    | writeFile_call p =>
        if existsb (fun id => String.eqb p (input_path id)) ids
        then Some "EACCES: permission denied" else None
    | _ => None
    end.

(** One row between the 11 m and the 10 m bands, within 1 MHz of both. *)
Definition between_11m_and_10m : list FreqResult :=
  [ {| freq := 27.6%float; sdbw := (-101)%float; snr := 12%float; reliability := 55%float |} ].

(** Two rows that fall on the 20 m band. *)
Definition two_on_20m : list FreqResult :=
  [ {| freq := 14.05%float; sdbw := (-98.5)%float; snr := 22.1%float; reliability := 80%float |};
    {| freq := 14.3%float; sdbw := (-120)%float; snr := (-3)%float; reliability := 10%float |} ].

Definition token : string := "a1b2c3d4e5f60718".

(** A world in which the report file of the run [token] holds [text]. *)
Definition world_with_report (text : string) : World :=
  {| nodes := {[ "/tmp" := Dir; "/tmp/iturhfprop" := Dir;
                 output_path token := File text ]};
     clock := 1750000000000;
     entropy := [] |}.

(** A platform whose engine writes [report] and exits with status 0. *)
Definition healthy : Platform := platform (Some report) (inr "done") no_fault.

(** A platform whose engine writes [report] and exits with status 1. *)
Definition failing : Platform := platform (Some report) (inl exit_1) no_fault.

(** A platform whose engine writes nothing and is killed at the timeout. *)
Definition timing_out : Platform :=
  platform None
    (inl {| status := None; stdout := None; stderr := None;
            exec_message := "spawnSync /bin/sh ETIMEDOUT" |})
    no_fault.

(** A platform on which the input file of the given runs cannot be
    written. *)
Definition refusing_writes (ids : list string) : Platform :=
  platform (Some report) (inr "done") (write_refused ids).

(** A platform on which the input file of the run [token] cannot be
    unlinked. *)
Definition refusing_unlink : Platform :=
  platform (Some report) (inr "done") (unlink_refused (input_path token)).

(** A query with the four coordinates. *)
Definition query : Query :=
  {[ "txLat" := "40.7128"; "txLon" := "-74.006";
     "rxLat" := "51.5074"; "rxLon" := "-0.1278" ]}.

(** The worlds of a run on the [failing] platform: at the start, once the
    scratch directory is there, once the input file is written, and once
    the engine has run. *)
Definition start : World := world [token].

Definition after_dir : World :=
  snd (ensure_temp_dir failing (snd (randomHex start))).

Definition after_write : World :=
  snd (writeFileSync failing (input_path token) (generateInputFile failing params)
         after_dir).

Definition after_engine : World :=
  snd (run_child failing
         (ITURHFPROP_PATH failing ++ " " ++ input_path token ++ " " ++ output_path token)
         30000 ("/opt/iturhfprop:" ++ env_or failing "LD_LIBRARY_PATH" "")
         after_write).

(** The ids of the 24 runs of an hourly batch: h0, h1, ..., h23. *)
Definition hour_tokens : list string :=
  map (fun h => "h" ++ digits h) (Zseq 0 24).

End Demo.

(** ** The health endpoint *)

Section Health.

Context (pf : Platform).

(** The fields of the answer of [GET /api/health] that depend on the file
    system (lines 303-318). *)
Record Health : Type := mkHealth {
  health_status : string;
  health_binary : string;
  health_libp533 : string;
  health_libp372 : string;
  health_dataDir : string;
  health_ionosData : string
}.

(** [b ? 'found' : 'missing'] *)
Definition found_or_missing (b : bool) : string :=
  if b then "found" else "missing".

(** [GET /api/health] (lines 291-319) *)
Definition api_health : M Health :=
  binaryExists <- existsSync (ITURHFPROP_PATH pf) ;;
  dataExists <- existsSync (ITURHFPROP_DATA pf) ;;
  dataSubExists <- existsSync (ITURHFPROP_DATA pf ++ "/Data") ;;
  libp533Exists <- existsSync "/opt/iturhfprop/libp533.so" ;;
  libp372Exists <- existsSync "/opt/iturhfprop/libp372.so" ;;
  ionosDataExists <- existsSync (ITURHFPROP_DATA pf ++ "/Data/ionos12.bin") ;;
  ret {| health_status :=
           if binaryExists && dataSubExists && libp533Exists && ionosDataExists
           then "healthy" else "degraded";
         health_binary := found_or_missing binaryExists;
         health_libp533 := found_or_missing libp533Exists;
         health_libp372 := found_or_missing libp372Exists;
         health_dataDir := found_or_missing dataSubExists;
         health_ionosData := found_or_missing ionosDataExists |}.

End Health.

(** ** Further vocabulary of the statements *)

(** A text with no line feed in it. *)
Fixpoint single_line (s : string) : bool :=
  match s with
  | EmptyString => true
  | String c s' => negb (Ascii.eqb c LF) && single_line s'
  end.

(** A text of white space only. *)
Fixpoint all_white_space (s : string) : bool :=
  match s with
  | EmptyString => true
  | String c s' => is_white_space c && all_white_space s'
  end.

(** A text of digits and dots only. *)
Fixpoint only_digits_dots (s : string) : bool :=
  match s with
  | EmptyString => true
  | String c s' =>
      ((match digit_val c with Some _ => true | None => false end) || Ascii.eqb c ".")
      && only_digits_dots s'
  end.

(** What the pattern captures is a run of digits and dots of the text. *)
Definition captured (s g : string) : Prop :=
  JsString.truthy g = true /\ only_digits_dots g = true
  /\ exists pre post, s = pre ++ g ++ post.

(** Whether a path names something. *)
Definition exists_at (w : World) (p : string) : bool :=
  bool_decide (is_Some (nodes w !! p)).

(** What the child process wrote, as [runPrediction] keeps it: the
    standard output of a run that ended well; what the error of a failed
    run carries, or the empty text. *)
Definition child_stdout (res : ExecFailure + string) : string :=
  match res with inr out => out | inl failure => default "" (stdout failure) end.

Definition child_stderr (res : ExecFailure + string) : string :=
  match res with inr _ => "" | inl failure => default "" (stderr failure) end.

(** What [parseOutputFile] returns for a path in a world. *)
Definition parsed_at (pf : Platform) (p : string) (w : World) : Results :=
  match fst (readFileSync pf p w) with
  | Returned output => parse_report output
  | Thrown err => parse_failure err
  end.

(** A computation that leaves what the path [p] names as it found it. *)
Definition preserves (p : string) {A} (c : M A) : Prop :=
  forall w, nodes (snd (c w)) !! p = nodes w !! p.

(** The command line of the engine for the run that starts in [w], and the
    library path it is given. *)
Definition engine_command (pf : Platform) (w : World) : string :=
  ITURHFPROP_PATH pf ++ " " ++ input_path (next_id w) ++ " " ++ output_path (next_id w).

Definition engine_library_path (pf : Platform) : string :=
  "/opt/iturhfprop:" ++ env_or pf "LD_LIBRARY_PATH" "".

(** The 35 lines of the engine input for a request. *)
Definition input_lines (pf : Platform) (params : Params) : list string :=
  [ "PathName " ++ quoted "OpenHamClock";
    "PathTXName " ++ quoted "TX";
    "Path.L_tx.lat " ++ fixed pf 4 (txLat params);
    "Path.L_tx.lng " ++ fixed pf 4 (txLon params);
    "TXAntFilePath " ++ quoted "ISOTROPIC";
    "TXGOS 0.0";
    "PathRXName " ++ quoted "RX";
    "Path.L_rx.lat " ++ fixed pf 4 (rxLat params);
    "Path.L_rx.lng " ++ fixed pf 4 (rxLon params);
    "RXAntFilePath " ++ quoted "ISOTROPIC";
    "RXGOS 0.0";
    "AntennaOrientation " ++ quoted "TX2RX";
    "Path.year " ++ str pf (year params);
    "Path.month " ++ str pf (month params);
    "Path.hour " ++ str pf (path_hour (hour params));
    "Path.SSN " ++ str pf (default 100%float (ssn params));
    "Path.frequency "
      ++ join ", " (map (fixed pf 3) (default (map snd HF_BANDS) (frequencies params)));
    "Path.txpower " ++ fixed pf 1 (path_txpower pf (default 100%float (txPower params)));
    "Path.BW 3000";
    "Path.SNRr " ++ str pf (default 15%float (requiredSNR params));
    "Path.SNRXXp " ++ str pf (default 90%float (requiredReliability params));
    "Path.ManMadeNoise " ++ quoted (default "RESIDENTIAL" (manMadeNoise params));
    "Path.Modulation ANALOG";
    "Path.SorL SHORTPATH";
    "LL.lat " ++ fixed pf 4 (rxLat params);
    "LL.lng " ++ fixed pf 4 (rxLon params);
    "LR.lat " ++ fixed pf 4 (rxLat params);
    "LR.lng " ++ fixed pf 4 (rxLon params);
    "UL.lat " ++ fixed pf 4 (rxLat params);
    "UL.lng " ++ fixed pf 4 (rxLon params);
    "UR.lat " ++ fixed pf 4 (rxLat params);
    "UR.lng " ++ fixed pf 4 (rxLon params);
    "DataFilePath " ++ quoted (ITURHFPROP_DATA pf ++ "/Data/");
    "RptFilePath " ++ quoted "/tmp/";
    "RptFileFormat " ++ quoted "RPT_PR | RPT_SNR | RPT_BCR" ].

(** One row per band of the table, each at the band's nominal frequency. *)
Definition rows_at_nominal (rows : list FreqResult) : Prop :=
  map freq rows = map snd HF_BANDS.

(** Test doubles of the further statements. *)
Module Demo2.

(** A report with carriage returns before the line feeds. *)
Definition report_lines : list string :=
  [ "Calculated Parameters";
    "02, 05,    7.100,-120.29, -16.04,   0.00";
    "02, 05,   14.100, -98.50,  22.10,  80.00";
    "End Calculated Parameters" ].

(** One row at each nominal frequency of the band table. *)
Definition nominal_rows : list FreqResult :=
  map (fun entry =>
         {| freq := snd entry; sdbw := (-100)%float; snr := 10%float;
            reliability := 50%float |})
      HF_BANDS.

(** A table of three rows after the opening of an earlier table, which
    has one row and no footer. *)
Definition report_after_earlier_table : string :=
  unlines
    [ "Calculated Parameters";
      "01, 05,    3.500,-130.00, -20.00,   0.00";
      "Calculated Parameters";
      "02, 05,    7.100,-120.29, -16.04,   0.00";
      "02, 05,   14.100, -98.50,  22.10,  80.00";
      "02, 05,   28.100,-101.75,  12.30,  39.99";
      "End Calculated Parameters" ].

(** Reading one path is refused. *)
Definition read_refused (path : string) : FsCall -> World -> option string :=
  fun c _ =>
    match c with
    | readFile_call p => if String.eqb p path then Some "EACCES: permission denied" else None
    | _ => None
    end.

(** A platform whose engine writes [report] and exits with status 1, and
    on which the report of the run [token] cannot be read. *)
Definition failing_unreadable : Platform :=
  Demo.platform (Some Demo.report) (inl Demo.exit_1)
    (read_refused (output_path Demo.token)).

(** A world with the engine installed. *)
Definition installed : World :=
  {| nodes := {[ "/opt/iturhfprop/ITURHFProp" := File "";
                 "/opt/iturhfprop/Data" := Dir;
                 "/opt/iturhfprop/libp533.so" := File "";
                 "/opt/iturhfprop/Data/ionos12.bin" := File "" ]};
     clock := 0;
     entropy := [] |}.

End Demo2.

(** * Properties *)

(** Splits a conjunction into its parts and proves each by evaluation. *)
Ltac by_evaluation :=
  repeat match goal with |- _ /\ _ => split end; vm_compute; reflexivity.

(** ** Strings and lines *)

Lemma prefix_app_l (a b s : string) :
  String.prefix (a ++ b) s = true -> String.prefix a s = true.
Proof.
  revert s; induction a as [|c a IH]; intros s H.
  - destruct s; reflexivity.
  - destruct s as [|d s]; simpl in *; [discriminate|].
    destruct (ascii_dec c d); [auto | discriminate].
Qed.

Lemma includes_app_l (s a b : string) :
  includes s (a ++ b) = true -> includes s a = true.
Proof.
  induction s as [|c s IH]; cbn [includes]; intros H.
  - apply orb_true_iff in H as [H|H]; [|discriminate].
    apply prefix_app_l in H. rewrite H. reflexivity.
  - apply orb_true_iff in H as [H|H].
    + apply prefix_app_l in H. rewrite H. reflexivity.
    + rewrite (IH H). apply orb_true_r.
Qed.

Lemma split_not_nil (sep : ascii) (s : string) : split sep s <> [].
Proof.
  destruct s as [|c s]; simpl; [discriminate|].
  destruct (Ascii.eqb c sep); [discriminate|].
  destruct (split sep s); discriminate.
Qed.

Lemma split_app_sep (sep : ascii) (a r : string) :
  split sep (a ++ String sep r) = (split sep a ++ split sep r)%list.
Proof.
  induction a as [|c a IH]; simpl.
  - rewrite Ascii.eqb_refl. reflexivity.
  - rewrite IH. destruct (Ascii.eqb c sep); [reflexivity|].
    destruct (split sep a) eqn:E; [|reflexivity].
    exfalso. exact (split_not_nil _ _ E).
Qed.

Lemma split_unlines_cons (l : string) (ls : list string) :
  split LF (unlines (l :: ls)) = (split LF l ++ split LF (unlines ls))%list.
Proof. simpl unlines. unfold nl. simpl. apply split_app_sep. Qed.

(** A line of [unlines] that has no line feed in it is a line of the text. *)
Lemma In_split_unlines (l : string) (ls : list string) :
  In l ls -> split LF l = [l] -> In l (split LF (unlines ls)).
Proof.
  intros Hin Hl. induction ls as [|x ls IH]; [destruct Hin|].
  rewrite split_unlines_cons. apply in_or_app.
  destruct Hin as [->|Hin].
  - left. rewrite Hl. left. reflexivity.
  - right. auto.
Qed.

(** ** The report parser *)

(** The loop body, in the vocabulary of the statements. *)
Lemma parse_line_eq (i : bool) (fs : list FreqResult) (line : string) :
  parse_line i fs line =
  if is_header (trim line) then Next true fs
  else if is_boundary (trim line) && (i && (0 <? length fs)%nat) then Break
  else if i && JsString.truthy (trim line)
          && negb (startsWith (trim line) "*") && negb (startsWith (trim line) "-")
  then
    if (6 <=? length (row_fields line))%nat then
      if accepted_freq (freq (row_record line))
      then Next i (fs ++ [row_record line]) else Next i fs
    else Next i fs
  else Next i fs.
Proof. reflexivity. Qed.

Lemma parse_line_outside (fs : list FreqResult) (line : string) :
  is_header (trim line) = false -> parse_line false fs line = Next false fs.
Proof.
  intros H. rewrite parse_line_eq, H. simpl.
  rewrite andb_false_r. reflexivity.
Qed.

Lemma parse_line_header (i : bool) (fs : list FreqResult) (line : string) :
  is_header (trim line) = true -> parse_line i fs line = Next true fs.
Proof. intros H. rewrite parse_line_eq, H. reflexivity. Qed.

Lemma row_fields_truthy (line : string) :
  (6 <=? length (row_fields line))%nat = true -> JsString.truthy (trim line) = true.
Proof.
  unfold row_fields. destruct (trim line); [discriminate | reflexivity].
Qed.

Lemma parse_line_row (fs : list FreqResult) (line : string) :
  well_formed_row line = true ->
  parse_line true fs line = Next true (fs ++ [row_record line]).
Proof.
  unfold well_formed_row. rewrite !andb_true_iff, !negb_true_iff.
  intros [[[[[Hh Hb] Hs] Hd] Hn] Ha].
  rewrite parse_line_eq, Hh, Hb, Hs, Hd, Hn, Ha, (row_fields_truthy _ Hn).
  reflexivity.
Qed.

Lemma footer_not_header (t : string) :
  includes t "End Calculated" = true -> is_header t = false.
Proof.
  intros H. unfold is_header.
  rewrite (includes_app_l t "End" " Calculated" H).
  apply andb_false_r.
Qed.

Lemma parse_line_footer (fs : list FreqResult) (line : string) :
  includes (trim line) "End Calculated" = true -> fs <> [] ->
  parse_line true fs line = Break.
Proof.
  intros H Hfs. rewrite parse_line_eq, (footer_not_header _ H).
  unfold is_boundary. rewrite H. destruct fs; [congruence | reflexivity].
Qed.

Lemma scan_lines_outside (pre rest : list string) (fs : list FreqResult) :
  Forall (fun l => is_header (trim l) = false) pre ->
  scan_lines (pre ++ rest) false fs = scan_lines rest false fs.
Proof.
  induction 1 as [|l pre Hl _ IH]; [reflexivity|].
  simpl. rewrite (parse_line_outside _ _ Hl). exact IH.
Qed.

Lemma parse_line_rows (all : list string) (i : bool) (fs : list FreqResult) (line : string) :
  In line all -> Forall (row_of all) fs ->
  match parse_line i fs line with
  | Next _ fs' => Forall (row_of all) fs'
  | Break => True
  end.
Proof.
  intros Hin Hfs. rewrite parse_line_eq.
  repeat match goal with
         | |- context [if ?b then _ else _] => destruct b eqn:?
         end; try exact Hfs; try exact I.
  apply Forall_app; split; [exact Hfs|].
  constructor; [|constructor].
  exists line. auto.
Qed.

Lemma scan_lines_rows (all lines : list string) (i : bool) (fs : list FreqResult) :
  (forall l, In l lines -> In l all) -> Forall (row_of all) fs ->
  Forall (row_of all) (scan_lines lines i fs).
Proof.
  revert i fs; induction lines as [|line lines IH]; intros i fs Hsub Hfs; [exact Hfs|].
  simpl. pose proof (parse_line_rows all i fs line (Hsub _ (or_introl eq_refl)) Hfs) as H.
  destruct (parse_line i fs line); [|exact Hfs].
  apply IH; [|exact H]. intros l Hl. apply Hsub. right. exact Hl.
Qed.

(** A table of three rows between its header and its footer. *)
Lemma scan_lines_three_rows (pre post : list string) (hdr r1 r2 r3 ftr : string) :
  Forall (fun l => is_header (trim l) = false) pre ->
  is_header (trim hdr) = true ->
  well_formed_row r1 = true -> well_formed_row r2 = true -> well_formed_row r3 = true ->
  includes (trim ftr) "End Calculated" = true ->
  scan_lines (pre ++ hdr :: r1 :: r2 :: r3 :: ftr :: post) false [] =
  [row_record r1; row_record r2; row_record r3].
Proof.
  intros Hpre Hh H1 H2 H3 Hf.
  rewrite (scan_lines_outside _ _ _ Hpre). simpl scan_lines.
  rewrite (parse_line_header _ _ _ Hh).
  rewrite (parse_line_row _ _ H1). simpl app.
  rewrite (parse_line_row _ _ H2). simpl app.
  rewrite (parse_line_row _ _ H3). simpl app.
  rewrite (parse_line_footer _ _ Hf); [reflexivity | discriminate].
Qed.

Lemma parseOutputFile_read (pf : Platform) (path output : string) (w : World) :
  fs_fault pf (readFile_call path) w = None ->
  nodes w !! path = Some (File output) ->
  parseOutputFile pf path w = (Returned (parse_report output), w).
Proof.
  intros Hf Hn. unfold parseOutputFile, try_catch, bind, readFileSync, fs_call.
  rewrite Hf, Hn. reflexivity.
Qed.

Lemma parse_report_rows (output : string) :
  Forall (row_of (split LF output)) (result_frequencies (parse_report output)).
Proof. apply scan_lines_rows; [auto | constructor]. Qed.

(** Inside the table, a line that is neither a header nor a boundary
    marker adds its record when it has the shape of a data row and its
    frequency passes the guard, and adds nothing otherwise. *)
Lemma parse_line_inside (fs : list FreqResult) (line : string) :
  is_header (trim line) = false ->
  is_boundary (trim line) = false ->
  parse_line true fs line =
  Next true (if data_shaped line && accepted_freq (freq (row_record line))
             then fs ++ [row_record line] else fs).
Proof.
  intros Hh Hb. rewrite parse_line_eq, Hh, Hb. unfold data_shaped.
  rewrite Hh, Hb. cbn [negb andb].
  destruct (6 <=? length (row_fields line))%nat eqn:Hn.
  - rewrite (row_fields_truthy _ Hn).
    destruct (startsWith (trim line) "*"), (startsWith (trim line) "-"),
      (accepted_freq (freq (row_record line))); reflexivity.
  - destruct (JsString.truthy (trim line)), (startsWith (trim line) "*"),
      (startsWith (trim line) "-"); reflexivity.
Qed.

Lemma parseOutputFile_rows (pf : Platform) (path content : string) (w w' : World)
    (results : Results) :
  nodes w !! path = Some (File content) ->
  parseOutputFile pf path w = (Returned results, w') ->
  Forall (row_of (split LF content)) (result_frequencies results).
Proof.
  intros Hn. unfold parseOutputFile, try_catch, bind, readFileSync, fs_call.
  destruct (fs_fault pf (readFile_call path) w).
  - intros [= <- _]. constructor.
  - rewrite Hn. intros [= <- _]. apply parse_report_rows.
Qed.



(** The guard at work: of three rows with the shape of a data row, the one
    whose frequency reads 0 and the one whose frequency does not parse are
    left out. *)
Example rows_the_guard_drops :
  result_frequencies
    (parse_report
       (unlines [ "Calculated Parameters";
                  "02, 05,    0.000,-120.29, -16.04,   0.00";
                  "02, 05,   14.100, -98.50,  22.10,  80.00";
                  "02, 05,      n/a,-101.75,  12.30,  39.99";
                  "End Calculated Parameters" ]))
  = [ row_record "02, 05,   14.100, -98.50,  22.10,  80.00" ]
  /\ data_shaped "02, 05,    0.000,-120.29, -16.04,   0.00" = true
  /\ data_shaped "02, 05,      n/a,-101.75,  12.30,  39.99" = true.
Proof. by_evaluation. Qed.


(** C2 (as amended).  [parseOutputFile] always returns, never throws, and
    leaves the world as it was.  When the report cannot be read the result
    has an empty frequency list and an error field holding the message of
    the error; when the report is read the result is the parse of its text
    and has no error field, whether or not rows were found. *)
Theorem parseOutputFile_total (pf : Platform) (path : string) (w : World) :
  exists results,
    parseOutputFile pf path w = (Returned results, w)
    /\ match fst (readFileSync pf path w) with
       | Returned output =>
           results = parse_report output
           /\ error results = None
           /\ raw results = Some (substring0 3000 output)
       | Thrown err =>
           error results = Some (message err)
           /\ result_frequencies results = []
       end.
Proof.
  unfold parseOutputFile, try_catch, bind, readFileSync, fs_call.
  destruct (fs_fault pf (readFile_call path) w) as [reason|].
  - eexists. split; [reflexivity|]. simpl. auto.
  - destruct (nodes w !! path) as [[content|]|].
    + eexists. split; [reflexivity|]. simpl. auto.
    + eexists. split; [reflexivity|]. simpl. auto.
    + eexists. split; [reflexivity|]. simpl. auto.
Qed.

(** C2, counterexample to the claim as stated: an empty report and a
    garbled one both give an empty frequency list and no error field. *)
Lemma empty_report_no_error :
  (exists results,
      parseOutputFile Demo.healthy (output_path Demo.token) (Demo.world_with_report "")
      = (Returned results, Demo.world_with_report "")
      /\ result_frequencies results = [] /\ error results = None)
  /\ (exists results,
      parseOutputFile Demo.healthy (output_path Demo.token)
        (Demo.world_with_report "@@ not a report ,,,,,, 7.1 @@")
      = (Returned results, Demo.world_with_report "@@ not a report ,,,,,, 7.1 @@")
      /\ result_frequencies results = [] /\ error results = None).
Proof.
  split.
  - exists (parse_report ""). split; [|split].
    + apply parseOutputFile_read; vm_compute; reflexivity.
    + vm_compute. reflexivity.
    + reflexivity.
  - exists (parse_report "@@ not a report ,,,,,, 7.1 @@"). split; [|split].
    + apply parseOutputFile_read; vm_compute; reflexivity.
    + vm_compute. reflexivity.
    + reflexivity.
Qed.


(** ** The input serializer *)

(** Runs [tac] on the goal for each [h] from 0 to 23. *)
Ltac each_hour h tac :=
  let n := fresh "n" in
  let Hn := fresh "Hn" in
  assert (exists n, h = Z.of_nat n /\ (n < 24)%nat) as [n [-> Hn]]
    by (exists (Z.to_nat h); lia);
  do 24 (destruct n as [|n]; [tac|]); lia.

Lemma hour_text (pf : Platform) (h : Z) :
  0 <= h <= 23 ->
  str pf (path_hour (of_Z h)) = digits (if h =? 0 then 24 else h).
Proof. intros Hh. each_hour h ltac:(vm_compute; reflexivity). Qed.

Lemma hour_text_one_line (h : Z) :
  0 <= h <= 23 ->
  split LF ("Path.hour " ++ digits (if h =? 0 then 24 else h))
  = [ "Path.hour " ++ digits (if h =? 0 then 24 else h) ].
Proof. intros Hh. each_hour h ltac:(vm_compute; reflexivity). Qed.

(** C3.  For a request whose hour is an integer from 0 to 23, the text
    [generateInputFile] produces has the line [Path.hour 24] when the hour
    is 0 and the line [Path.hour h] for every other hour [h]. *)
Theorem generateInputFile_path_hour (pf : Platform) (params : Params) (h : Z) :
  0 <= h <= 23 ->
  hour params = of_Z h ->
  In ("Path.hour " ++ digits (if h =? 0 then 24 else h))
     (split LF (generateInputFile pf params)).
Proof.
  intros Hh Hhour. apply In_split_unlines; [|apply hour_text_one_line; exact Hh].
  rewrite <- (hour_text pf h Hh), <- Hhour.
  do 14 right. left. reflexivity.
Qed.

Lemma generateInputFile_path_hour_witness :
  In "Path.hour 24" (split LF (generateInputFile Demo.healthy Demo.params))
  /\ In "Path.hour 23"
       (split LF (generateInputFile Demo.healthy
                    (hourly_params Demo.healthy ∅ 0 (of_Z 23)))).
Proof.
  split.
  - apply (generateInputFile_path_hour Demo.healthy Demo.params 0); [lia | reflexivity].
  - apply (generateInputFile_path_hour Demo.healthy
             (hourly_params Demo.healthy ∅ 0 (of_Z 23)) 23); [lia | reflexivity].
Defined.

(** C9.  For a request of 100 watts (given, or by default), on a platform
    whose [Math.log10] at 100/1000 is within 8 units in the last place of
    -1, the text [generateInputFile] produces has the line
    [Path.txpower -10.0]: 10 log10(100/1000) to one decimal. *)
Theorem generateInputFile_txpower_100 (pf : Platform) (params : Params) :
  default 100%float (txPower params) = 100%float ->
  within_ulps 8 (-1)%float (Math_log10 pf (100 / 1000)%float) ->
  In "Path.txpower -10.0" (split LF (generateInputFile pf params)).
Proof.
  intros Hp Hlog. apply In_split_unlines; [|vm_compute; reflexivity].
  do 17 right. left.
  unfold path_txpower. rewrite Hp.
  remember (Math_log10 pf (100 / 1000)%float) as y eqn:Hy. clear Hy.
  unfold within_ulps in Hlog. simpl in Hlog.
  repeat (destruct Hlog as [<- | Hlog]; [vm_compute; reflexivity|]).
  destruct Hlog.
Qed.

Lemma generateInputFile_txpower_100_witness :
  In "Path.txpower -10.0" (split LF (generateInputFile Demo.healthy Demo.params)).
Proof.
  apply (generateInputFile_txpower_100 Demo.healthy Demo.params).
  - reflexivity.
  - left. vm_compute. reflexivity.
Defined.

(** ** The single-point endpoint *)

Lemma truthy_hour (k : Z) :
  0 <= k < 24 -> JsNumber.truthy (of_Z k) = negb (k =? 0).
Proof. intros Hk. each_hour k ltac:(vm_compute; reflexivity). Qed.

Lemma path_hour_truthy (h : float) :
  JsNumber.truthy h = true -> path_hour h = h.
Proof.
  unfold JsNumber.truthy, path_hour. rewrite andb_true_iff, !negb_true_iff.
  intros [-> ->]. reflexivity.
Qed.

(** C10.  The hour [GET /api/predict] passes to [runPrediction] is never 0
    (and never NaN), so the serializer never takes its hour-0 branch for
    it: a query hour that parses to a non-zero number is passed as it is;
    one that parses to 0 or does not parse is replaced by the current UTC
    hour, and by 12 when that hour is 0. *)
Theorem predict_hour_never_zero (pf : Platform) (query : Query) (w : World) :
  let requested := parseInt_opt (query !! "hour") in
  let utc := (clock w / 3600000) mod 24 in
  let passed := hour (predict_params pf query (clock w)) in
  JsNumber.truthy passed = true
  /\ path_hour passed = passed
  /\ passed = (if JsNumber.truthy requested then requested
               else if utc =? 0 then 12%float else of_Z utc)
  /\ api_predict pf query w =
     if missing_coordinates query then
       (Returned {| statusCode := 400;
                    body := ErrorBody "Missing required coordinates (txLat, txLon, rxLat, rxLon)" |},
        w)
     else
       match runPrediction pf (predict_params pf query (clock w)) w with
       | (Returned results, w') =>
           (Returned {| statusCode := 200; body := PredictBody results |}, w')
       | (Thrown err, w') =>
           (Returned {| statusCode := 500; body := ErrorBody (message err) |}, w')
       end.
Proof.
  intros requested utc passed.
  assert (Hutc : 0 <= utc < 24) by (apply Z.mod_pos_bound; lia).
  assert (Hpassed : passed = (if JsNumber.truthy requested then requested
                               else if utc =? 0 then 12%float else of_Z utc)).
  { subst passed. cbn [hour predict_params]. unfold request_hour, or_else.
    fold requested. unfold getUTCHours. fold utc.
    destruct (JsNumber.truthy requested) eqn:E; [rewrite E; reflexivity|].
    rewrite (truthy_hour utc Hutc). destruct (utc =? 0); reflexivity. }
  assert (Htruthy : JsNumber.truthy passed = true).
  { rewrite Hpassed. destruct (JsNumber.truthy requested) eqn:E; [exact E|].
    destruct (utc =? 0) eqn:E0; [reflexivity|].
    rewrite (truthy_hour utc Hutc), E0. reflexivity. }
  split; [exact Htruthy|]. split; [apply path_hour_truthy; exact Htruthy|].
  split; [exact Hpassed|].
  unfold api_predict, try_catch, bind, Date_now, ret.
  destruct (missing_coordinates query); [reflexivity|].
  destruct (runPrediction pf (predict_params pf query (clock w)) w) as [[results|err] w'];
    reflexivity.
Qed.

(** ** The band mapping *)

Lemma SFcompare_Lt_swap (x y : spec_float) :
  SFcompare x y = Some Lt -> SFcompare y x = Some Gt.
Proof.
  destruct x as [sx|sx| |sx mx ex], y as [sy|sy| |sy my ey]; simpl;
    try destruct sx; try destruct sy; try discriminate; try reflexivity;
    rewrite (Z.compare_antisym ex ey);
    assert (Hm : Pos.compare_cont Eq my mx = CompOpp (Pos.compare_cont Eq mx my))
      by (symmetry; apply (Pos.compare_cont_antisym mx my Eq));
    rewrite Hm;
    destruct (ex ?= ey); simpl; try discriminate; try reflexivity;
    destruct (Pos.compare_cont Eq mx my); simpl; try discriminate; reflexivity.
Qed.

(** [x < y] excludes [y <= x]. *)
Lemma ltb_not_leb (x y : float) :
  PrimFloat.ltb x y = true -> PrimFloat.leb y x = false.
Proof.
  rewrite ltb_spec, leb_spec. unfold SFltb, SFleb.
  destruct (SFcompare (Prim2SF x) (Prim2SF y)) as [[]|] eqn:E; try discriminate.
  intros _. rewrite (SFcompare_Lt_swap _ _ E). reflexivity.
Qed.

(** [y <= x] gives [z <= x] for the constants [z = 40 <= y = 70]. *)
Lemma status_of_fair (r : float) :
  PrimFloat.leb 40%float r = true -> PrimFloat.ltb r 70%float = true ->
  status_of r = "FAIR".
Proof.
  intros H40 H70. unfold status_of.
  rewrite (ltb_not_leb _ _ H70), H40. reflexivity.
Qed.

Lemma status_of_poor (r : float) :
  PrimFloat.leb 40%float r = false -> PrimFloat.leb 70%float r = false ->
  status_of r = "POOR".
Proof. intros H40 H70. unfold status_of. rewrite H70, H40. reflexivity. Qed.

Lemma fold_assign_band (bandFreqs : list (string * float)) (name : string)
    (frequencies : list FreqResult) (bands : gmap string BandInfo) :
  fold_left (assign_band bandFreqs) frequencies bands !! name =
  match last (assigned_to bandFreqs name frequencies) with
  | Some r => Some (band_info r)
  | None => bands !! name
  end.
Proof.
  revert bands; induction frequencies as [|r rest IH]; intros bands; [reflexivity|].
  cbn [fold_left]. rewrite IH. unfold assigned_to. cbn [List.filter].
  fold (assigned_to bandFreqs name rest).
  unfold assign_band.
  destruct (find_band bandFreqs r) as [e|].
  - destruct (String.eqb (fst e) name) eqn:E.
    + apply String.eqb_eq in E. rewrite last_cons.
      destruct (last (assigned_to bandFreqs name rest)); [reflexivity|].
      rewrite E. apply lookup_insert_eq.
    + apply String.eqb_neq in E.
      destruct (last (assigned_to bandFreqs name rest)); [reflexivity|].
      apply lookup_insert_ne. exact E.
  - reflexivity.
Qed.

Lemma find_band_first (bandFreqs : list (string * float)) (r : FreqResult)
    (e : string * float) :
  find_band bandFreqs r = Some e <->
  exists pre post,
    bandFreqs = (pre ++ e :: post)%list
    /\ within_1MHz (snd e) (freq r) = true
    /\ Forall (fun e' => within_1MHz (snd e') (freq r) = false) pre.
Proof.
  unfold find_band. induction bandFreqs as [|b bs IH]; simpl.
  - split; [discriminate|]. intros (pre & post & H & _). destruct pre; discriminate.
  - destruct (within_1MHz (snd b) (freq r)) eqn:E.
    + split.
      * intros [= <-]. exists [], bs. repeat split; [exact E | constructor].
      * intros (pre & post & H & Hw & Hpre). destruct pre as [|p pre].
        -- injection H as -> _. reflexivity.
        -- injection H as -> _. inversion Hpre; congruence.
    + rewrite IH. split.
      * intros (pre & post & -> & Hw & Hpre). exists (b :: pre), post.
        repeat split; [exact Hw | constructor; assumption].
      * intros (pre & post & H & Hw & Hpre). destruct pre as [|p pre].
        -- injection H as -> _. congruence.
        -- injection H as -> ->. inversion Hpre; subst. exists pre, post. auto.
Qed.

Lemma assigned_to_within (bandFreqs : list (string * float)) (name : string)
    (frequencies : list FreqResult) (r : FreqResult) :
  In r (assigned_to bandFreqs name frequencies) ->
  In r frequencies
  /\ exists nominal, In (name, nominal) bandFreqs
                     /\ within_1MHz nominal (freq r) = true.
Proof.
  unfold assigned_to. rewrite filter_In. intros [Hin H]. split; [exact Hin|].
  destruct (find_band bandFreqs r) as [[n f]|] eqn:E; [|discriminate].
  apply String.eqb_eq in H. simpl in H. subst n.
  apply find_band_first in E as (pre & post & -> & Hw & _).
  exists f. split; [|exact Hw]. apply in_or_app. right. left. reflexivity.
Qed.

Lemma last_In {A} (l : list A) (x : A) : last l = Some x -> In x l.
Proof.
  induction l as [|a l IH]; [discriminate|]. rewrite last_cons.
  destruct (last l); intros [= <-]; [right; auto | left; reflexivity].
Qed.

(** C7 (as amended).  The band mapping goes result entry by result entry:
    an entry is assigned to the first band, in band-table order, whose
    nominal frequency is less than 1 MHz away from the entry's frequency;
    a band holds the last entry assigned to it, and a band that holds an
    entry is within 1 MHz of that entry, so a band with no entry within
    tolerance is absent.  The status of a band is GOOD when the
    reliability is at least 70, FAIR when it is at least 40 and less than
    70, POOR otherwise; 69.99 gives FAIR and 39.99 gives POOR. *)
Theorem map_bands_last_assigned (bandFreqs : list (string * float))
    (frequencies : list FreqResult) (name : string) :
  map_bands bandFreqs frequencies !! name
  = band_info <$> last (assigned_to bandFreqs name frequencies)
  /\ (forall r e, find_band bandFreqs r = Some e <->
        exists pre post,
          bandFreqs = (pre ++ e :: post)%list
          /\ within_1MHz (snd e) (freq r) = true
          /\ Forall (fun e' => within_1MHz (snd e') (freq r) = false) pre)
  /\ (forall info, map_bands bandFreqs frequencies !! name = Some info ->
        exists r nominal,
          In r frequencies /\ In (name, nominal) bandFreqs
          /\ within_1MHz nominal (freq r) = true /\ info = band_info r)
  /\ (forall r,
        (PrimFloat.leb 70%float r = true -> status_of r = "GOOD")
        /\ (PrimFloat.leb 40%float r = true -> PrimFloat.ltb r 70%float = true ->
            status_of r = "FAIR")
        /\ (PrimFloat.leb 40%float r = false -> PrimFloat.leb 70%float r = false ->
            status_of r = "POOR"))
  /\ status_of 70%float = "GOOD" /\ status_of 69.99%float = "FAIR"
  /\ status_of 40%float = "FAIR" /\ status_of 39.99%float = "POOR".
Proof.
  assert (Hmain : map_bands bandFreqs frequencies !! name
                  = band_info <$> last (assigned_to bandFreqs name frequencies)).
  { unfold map_bands. rewrite fold_assign_band.
    destruct (last (assigned_to bandFreqs name frequencies)); [reflexivity|].
    apply lookup_empty. }
  split; [exact Hmain|]. split; [intros r e; apply find_band_first|].
  split.
  { intros info. rewrite Hmain.
    destruct (last (assigned_to bandFreqs name frequencies)) as [r|] eqn:E; [|discriminate].
    intros [= <-]. apply last_In, assigned_to_within in E as (Hin & nominal & Ht & Hw).
    exists r, nominal. auto. }
  split.
  { intros r. split; [|split].
    - intros H. unfold status_of. rewrite H. reflexivity.
    - apply status_of_fair.
    - apply status_of_poor. }
  by_evaluation.
Qed.

(** C7, counterexample to the claim as stated.  With two result entries
    within 1 MHz of the 20 m band, the band holds the second (status POOR),
    where the first entry within tolerance is the other one (status GOOD);
    and with one entry at 27.6 MHz, within 1 MHz of both the 11 m and the
    10 m band, the 10 m band is absent although that entry is its first
    within tolerance. *)
Lemma band_does_not_hold_first_within_tolerance :
  band_status <$> (map_bands HF_BANDS Demo.two_on_20m !! "20m") = Some "POOR"
  /\ band_status <$> map_bands_by_band HF_BANDS Demo.two_on_20m "20m" = Some "GOOD"
  /\ map_bands HF_BANDS Demo.between_11m_and_10m !! "10m" = None
  /\ band_status <$> map_bands_by_band HF_BANDS Demo.between_11m_and_10m "10m" = Some "FAIR".
Proof. by_evaluation. Qed.

(** The entry of the property list: 14.05 MHz falls on the 20 m band. *)
Example band_20m_at_14_05 :
  band_status <$>
    (map_bands HF_BANDS
       [ {| freq := 14.05%float; sdbw := (-98.5)%float; snr := 22.1%float;
            reliability := 69.99%float |} ] !! "20m")
  = Some "FAIR".
Proof. vm_compute. reflexivity. Qed.

(** ** The engine runner *)

Create HintDb fs_throw.

Lemma throws_only_fs_ret {A} (a : A) : throws_only_fs (ret a).
Proof. intros w e w' H. discriminate. Qed.

Lemma throws_only_fs_bind {A B} (c : M A) (k : A -> M B) :
  throws_only_fs c -> (forall a, throws_only_fs (k a)) -> throws_only_fs (bind c k).
Proof.
  intros Hc Hk w e w'. unfold bind.
  destruct (c w) as [[a|e0] w0] eqn:E.
  - apply Hk.
  - intros [= <- <-]. exact (Hc _ _ _ E).
Qed.

Lemma throws_only_fs_try_catch {A} (c : M A) (h : Error -> M A) :
  (forall e, throws_only_fs (h e)) -> throws_only_fs (try_catch c h).
Proof.
  intros Hh w e w'. unfold try_catch.
  destruct (c w) as [[a|e0] w0]; [discriminate | apply Hh].
Qed.

Lemma throws_only_fs_try_finally {A} (c : M A) (f : M unit) :
  throws_only_fs c -> throws_only_fs f -> throws_only_fs (try_finally c f).
Proof.
  intros Hc Hf w e w'. unfold try_finally.
  destruct (c w) as [o w0] eqn:Ec. destruct (f w0) as [[u|e1] w1] eqn:Ef.
  - intros [= -> <-]. exact (Hc _ _ _ Ec).
  - intros [= <- <-]. exact (Hf _ _ _ Ef).
Qed.

Lemma throws_only_fs_call (pf : Platform) {A} (c : FsCall) (k : M A) :
  throws_only_fs k -> throws_only_fs (fs_call pf c k).
Proof.
  intros Hk w e w'. unfold fs_call.
  destruct (fs_fault pf c w); [intros [= <- <-]; reflexivity | apply Hk].
Qed.

Lemma throws_only_fs_when (b : bool) (c : M unit) :
  throws_only_fs c -> throws_only_fs (when b c).
Proof. destruct b; [auto | intros _; apply throws_only_fs_ret]. Qed.

(** Proves that a file-system primitive throws only file-system errors. *)
Ltac fs_primitive :=
  apply throws_only_fs_call; intros w e w';
  repeat match goal with
         | |- context [match ?x with _ => _ end] => destruct x
         end;
  intros [= <- <-]; reflexivity.

Lemma throws_only_fs_readFileSync (pf : Platform) (p : string) :
  throws_only_fs (readFileSync pf p).
Proof. fs_primitive. Qed.

Lemma throws_only_fs_writeFileSync (pf : Platform) (p data : string) :
  throws_only_fs (writeFileSync pf p data).
Proof. fs_primitive. Qed.

Lemma throws_only_fs_unlinkSync (pf : Platform) (p : string) :
  throws_only_fs (unlinkSync pf p).
Proof. fs_primitive. Qed.

Lemma throws_only_fs_statSync (pf : Platform) (p : string) :
  throws_only_fs (statSync pf p).
Proof. fs_primitive. Qed.

Lemma throws_only_fs_readdirSync (pf : Platform) (p : string) :
  throws_only_fs (readdirSync pf p).
Proof. fs_primitive. Qed.

Lemma throws_only_fs_mkdirSync (pf : Platform) (p : string) :
  throws_only_fs (mkdirSync pf p).
Proof. fs_primitive. Qed.

Lemma throws_only_fs_existsSync (p : string) : throws_only_fs (existsSync p).
Proof. intros w e w' H. discriminate. Qed.

Lemma throws_only_fs_Date_now : throws_only_fs Date_now.
Proof. intros w e w' H. discriminate. Qed.

Lemma throws_only_fs_randomHex : throws_only_fs randomHex.
Proof. intros w e w'. unfold randomHex. destruct (entropy w); discriminate. Qed.

#[local] Hint Resolve throws_only_fs_ret throws_only_fs_bind throws_only_fs_try_catch
  throws_only_fs_try_finally throws_only_fs_when
  throws_only_fs_readFileSync throws_only_fs_writeFileSync throws_only_fs_unlinkSync
  throws_only_fs_statSync throws_only_fs_readdirSync throws_only_fs_mkdirSync
  throws_only_fs_existsSync throws_only_fs_Date_now throws_only_fs_randomHex : fs_throw.

Lemma throws_only_fs_check_output (pf : Platform) (p : string) :
  throws_only_fs (check_output pf p).
Proof.
  unfold check_output. apply throws_only_fs_bind; [auto with fs_throw|].
  intros []; auto 6 with fs_throw.
Qed.

(** Whatever [execSync] throws, [runPrediction] throws nothing but
    file-system errors. *)
Lemma throws_only_fs_runPrediction (pf : Platform) (params : Params) :
  throws_only_fs (runPrediction pf params).
Proof.
  unfold runPrediction, ensure_temp_dir, try_block, run_engine, parseOutputFile,
    cleanup.
  pose proof (throws_only_fs_check_output pf) as Hc.
  repeat (first [ solve [auto with fs_throw]
                | apply throws_only_fs_bind | apply throws_only_fs_try_finally
                | apply throws_only_fs_try_catch
                | match goal with |- forall _, throws_only_fs _ => intro end ]).
Qed.

Lemma randomHex_eq (w : World) :
  randomHex w = (Returned (next_id w), snd (randomHex w))
  /\ nodes (snd (randomHex w)) = nodes w.
Proof. unfold randomHex, next_id. destruct (entropy w); split; reflexivity. Qed.

Lemma cleanup_returns (pf : Platform) (ip op : string) (w : World) :
  cleanup pf ip op w = (Returned tt, snd (cleanup pf ip op w)).
Proof.
  unfold cleanup, try_catch.
  destruct (cleanup_block pf ip op w) as [[[]|e] w']; reflexivity.
Qed.

(** [runPrediction], step by step. *)
Lemma runPrediction_eq (pf : Platform) (params : Params) (w : World) :
  runPrediction pf params w =
  match ensure_temp_dir pf (snd (randomHex w)) with
  | (Returned _, w0) =>
      let ip := input_path (next_id w) in
      let op := output_path (next_id w) in
      let run := try_block pf params ip op w0 in
      (fst run, snd (cleanup pf ip op (snd run)))
  | (Thrown e, w0) => (Thrown e, w0)
  end.
Proof.
  unfold runPrediction, bind. destruct (randomHex_eq w) as [-> _].
  cbn [snd]. destruct (ensure_temp_dir pf (snd (randomHex w))) as [[[]|e] w0]; [|reflexivity].
  unfold try_finally. cbv zeta.
  destruct (try_block pf params (input_path (next_id w)) (output_path (next_id w)) w0)
    as [o wm].
  rewrite cleanup_returns. reflexivity.
Qed.

Lemma unlink_if_exists_post (pf : Platform) (p : string) (w w' : World) :
  unlink_if_exists pf p w = (Returned tt, w') ->
  nodes w' = delete p (nodes w).
Proof.
  unfold unlink_if_exists, bind, existsSync, when, unlinkSync, fs_call, ret.
  case_bool_decide as Hp.
  - destruct (fs_fault pf (unlink_call p) w); [discriminate|].
    destruct (nodes w !! p) as [[c|]|]; try discriminate.
    intros [= <-]. reflexivity.
  - intros [= <-]. symmetry. apply delete_id.
    destruct (nodes w !! p) eqn:E; [|reflexivity].
    exfalso. apply Hp. eauto.
Qed.

(** When the cleanup block completes, neither path names anything. *)
Lemma cleanup_block_post (pf : Platform) (ip op : string) (w w' : World) :
  cleanup_block pf ip op w = (Returned tt, w') ->
  nodes w' !! ip = None /\ nodes w' !! op = None.
Proof.
  unfold cleanup_block, bind.
  destruct (unlink_if_exists pf ip w) as [[[]|e] w1] eqn:E1; [|discriminate].
  intros E2. apply unlink_if_exists_post in E1, E2. rewrite E2, E1. split.
  - destruct (decide (op = ip)) as [->|Hne].
    + apply lookup_delete_eq.
    + rewrite lookup_delete_ne by exact Hne. apply lookup_delete_eq.
  - apply lookup_delete_eq.
Qed.

(** When making the scratch directory throws, the file system is as it
    was, and the directory is missing. *)
Lemma ensure_temp_dir_thrown (pf : Platform) (w w0 : World) (e : Error) :
  ensure_temp_dir pf w = (Thrown e, w0) ->
  nodes w0 = nodes w /\ nodes w !! TEMP_DIR = None.
Proof.
  unfold ensure_temp_dir, bind, existsSync, when, mkdirSync, fs_call, ret.
  case_bool_decide as Hd; simpl; [discriminate|].
  assert (Hn : nodes w !! TEMP_DIR = None).
  { destruct (nodes w !! TEMP_DIR) eqn:E; [|reflexivity]. exfalso. apply Hd. eauto. }
  destruct (fs_fault pf (mkdir_call TEMP_DIR) w).
  - intros [= _ <-]. auto.
  - match goal with |- context [if ?b then _ else _] => destruct b end.
    + intros [= _ <-]. auto.
    + rewrite Hn. discriminate.
Qed.

Lemma keeps_world_bind {A B} (c : M A) (k : A -> M B) :
  keeps_world c -> (forall a, keeps_world (k a)) -> keeps_world (bind c k).
Proof.
  intros Hc Hk w. unfold bind. specialize (Hc w).
  destruct (c w) as [[a|e] w0]; simpl in Hc; subst w0; [apply Hk | reflexivity].
Qed.

Lemma keeps_world_call (pf : Platform) {A} (c : FsCall) (k : M A) :
  keeps_world k -> keeps_world (fs_call pf c k).
Proof.
  intros Hk w. unfold fs_call. destruct (fs_fault pf c w); [reflexivity | apply Hk].
Qed.

Lemma keeps_world_readFileSync (pf : Platform) (p : string) :
  keeps_world (readFileSync pf p).
Proof.
  apply keeps_world_call. intros w.
  destruct (nodes w !! p) as [[c|]|]; reflexivity.
Qed.

Lemma keeps_world_statSync (pf : Platform) (p : string) :
  keeps_world (statSync pf p).
Proof.
  apply keeps_world_call. intros w.
  destruct (nodes w !! p) as [[c|]|]; reflexivity.
Qed.

Lemma keeps_world_readdirSync (pf : Platform) (p : string) :
  keeps_world (readdirSync pf p).
Proof.
  apply keeps_world_call. intros w.
  destruct (nodes w !! p) as [[c|]|]; reflexivity.
Qed.

Lemma check_output_world (pf : Platform) (p : string) (w : World) :
  snd (check_output pf p w) = w.
Proof.
  revert w. change (keeps_world (check_output pf p)). unfold check_output.
  apply keeps_world_bind; [intros w; reflexivity|].
  intros [].
  - apply keeps_world_bind; [apply keeps_world_readFileSync|]. intros _.
    apply keeps_world_bind; [apply keeps_world_statSync|]. intros _ w. reflexivity.
  - apply keeps_world_readdirSync.
Qed.

(** A failed engine run is caught: what the process wrote is kept. *)
Lemma run_engine_failure (pf : Platform) (cmd : string) (w w' : World)
    (failure : ExecFailure) :
  run_child pf cmd 30000 ("/opt/iturhfprop:" ++ env_or pf "LD_LIBRARY_PATH" "") w
  = (inl failure, w') ->
  run_engine pf cmd w
  = (Returned (default "" (stdout failure), default "" (stderr failure)), w').
Proof.
  intros H. unfold run_engine, try_catch, bind, execSync. rewrite H. reflexivity.
Qed.

Lemma parseOutputFile_returns (pf : Platform) (path : string) (w : World) :
  exists results, parseOutputFile pf path w = (Returned results, w).
Proof.
  unfold parseOutputFile, try_catch, bind.
  pose proof (keeps_world_readFileSync pf path w) as Hw.
  destruct (readFileSync pf path w) as [[output|err] w']; simpl in Hw; subst w';
    eexists; reflexivity.
Qed.




(** The engine exits with status 1 after writing its report: the three
    rows are returned, with what the process wrote. *)
Example runPrediction_after_exit_1 :
  exists results,
    fst (runPrediction Demo.failing Demo.params Demo.start) = Returned results
    /\ result_frequencies results = result_frequencies (parse_report Demo.report)
    /\ error results = None
    /\ execStdout results = Some "partial"
    /\ execStderr results = Some "p533 failed"
    /\ elapsed results = Some 1500.
Proof. eexists. split; [vm_compute; reflexivity|]. by_evaluation. Qed.


Lemma demo_world_consistent (tokens : list string) : scratch_consistent (Demo.world tokens).
Proof. intros H. vm_compute in H. discriminate. Defined.



(** The ways out of [runPrediction]: a result, a result after an engine
    failure, a result after a timeout, an exception. *)
Example runPrediction_exits :
  (entry_rows (entry_of 0 (fst (runPrediction Demo.healthy Demo.params
                                  (Demo.world [Demo.token])))) = 3%nat)
  /\ (entry_rows (entry_of 0 (fst (runPrediction Demo.failing Demo.params
                                     (Demo.world [Demo.token])))) = 3%nat)
  /\ (error <$> (match fst (runPrediction Demo.timing_out Demo.params
                                  (Demo.world [Demo.token])) with
                 | Returned results => Some results
                 | Thrown _ => None
                 end)
      = Some (Some "ENOENT: no such file or directory, open '/tmp/iturhfprop/output_a1b2c3d4e5f60718.txt'"))
  /\ entry_of 0 (fst (runPrediction (Demo.refusing_writes [Demo.token]) Demo.params
                        (Demo.world [Demo.token])))
     = HourError 0 "EACCES: permission denied, open '/tmp/iturhfprop/input_a1b2c3d4e5f60718.txt'".
Proof. by_evaluation. Qed.

(** ** The hourly batch *)

Lemma hourly_turn_eq (pf : Platform) (params_at : float -> Params) (h : Z) (w : World) :
  hourly_turn pf params_at h w =
  (Returned (entry_of h (fst (runPrediction pf (params_at (of_Z h)) w))),
   snd (runPrediction pf (params_at (of_Z h)) w)).
Proof.
  unfold hourly_turn, try_catch, bind, ret.
  destruct (runPrediction pf (params_at (of_Z h)) w) as [[result|err] w']; reflexivity.
Qed.

Lemma hourly_loop_eq (pf : Platform) (params_at : float -> Params) (turns : nat) :
  forall (h : Z) (acc : list HourEntry) (w : World),
    hourly_loop pf params_at h turns acc w =
    (Returned
       (acc ++ map (fun i : nat =>
                      entry_of (h + Z.of_nat i)
                        (fst (runPrediction pf (params_at (of_Z (h + Z.of_nat i)))
                                (world_at pf params_at h w i))))
                   (seq 0 turns))%list,
     world_at pf params_at h w turns).
Proof.
  induction turns as [|turns IH]; intros h acc w.
  - simpl. rewrite app_nil_r. reflexivity.
  - cbn [hourly_loop]. unfold bind. rewrite hourly_turn_eq, IH.
    cbn [world_at]. f_equal. f_equal. rewrite <- app_assoc. f_equal.
    cbn [seq map app]. rewrite <- seq_shift, map_map.
    rewrite Z.add_0_r. cbn [world_at]. f_equal.
    apply map_ext. intros i. cbn [world_at].
    replace (h + Z.of_nat (S i)) with (h + 1 + Z.of_nat i) by lia.
    reflexivity.
Qed.


(** The batch of the property list: with the hours 3 and 17 made to fail,
    the 24 entries are in hour order, those two carry errors and the other
    22 carry the three rows of the report. *)
Example hourly_batch_with_two_failures :
  exists entries,
    fst (hourly_results (Demo.refusing_writes ["h3"; "h17"])
           (hourly_params (Demo.refusing_writes ["h3"; "h17"]) Demo.query 1750000000000)
           (Demo.world Demo.hour_tokens))
    = Returned entries
    /\ map entry_hour entries = Zseq 0 24
    /\ map entry_hour (List.filter is_hour_error entries) = [3; 17]
    /\ map entry_rows (List.filter (fun e => negb (is_hour_error e)) entries)
       = repeat 3%nat 22.
Proof. eexists. split; [vm_compute; reflexivity|]. by_evaluation. Qed.

(** X15.  [GET /api/predict/hourly] answers 400 without coordinates, and
    else 200 with the 24 entries of the loop: it never answers 500, a
    failing hour being an entry of the list. *)
Lemma api_predict_hourly_eq (pf : Platform) (query : Query) (w : World) :
  api_predict_hourly pf query w =
  if missing_coordinates query then
    (Returned {| statusCode := 400;
                 body := ErrorBody "Missing required coordinates (txLat, txLon, rxLat, rxLon)" |},
     w)
  else
    let params_at := hourly_params pf query (clock w) in
    (Returned {| statusCode := 200;
                 body := HourlyBody (map (entry_at pf params_at w) (seq 0 24)) |},
     world_at pf params_at 0 w 24).
Proof.
  unfold api_predict_hourly, try_catch, bind, Date_now, ret.
  destruct (missing_coordinates query); [reflexivity|].
  unfold hourly_results. rewrite hourly_loop_eq. reflexivity.
Qed.

(** The hour [GET /api/predict] passes on: a query hour of 0 becomes the
    UTC hour (5 here), or 12 at UTC hour 0; an absent hour likewise; a
    query hour of 24 is passed as it is. *)
Example predict_hour_examples :
  let passed (asked : option string) (now : Z) :=
    Number_toString (fun _ => "")
      (hour (predict_params Demo.healthy
               (match asked with Some h => <[ "hour" := h ]> Demo.query | None => Demo.query end)
               now)) in
  passed (Some "0") (5 * 3600000) = "5"
  /\ passed (Some "0") 0 = "12"
  /\ passed None (5 * 3600000) = "5"
  /\ passed (Some "abc") (23 * 3600000 + 59) = "23"
  /\ passed (Some "7") 0 = "7"
  /\ passed (Some "24") 0 = "24".
Proof. cbv zeta. by_evaluation. Qed.

(** * Further properties *)

Lemma append_cons (c : ascii) (a b : string) : String c a ++ b = String c (a ++ b).
Proof. reflexivity. Qed.

Lemma append_nil_l (b : string) : "" ++ b = b.
Proof. reflexivity. Qed.

(** ** The report parser, further *)

(** X1.  A report with no table header line has no rows: nothing is read
    outside the "Calculated Parameters" section. *)
Theorem no_header_no_rows (output : string) :
  Forall (fun l => is_header (trim l) = false) (split LF output) ->
  result_frequencies (parse_report output) = [].
Proof.
  intros H. cbn [result_frequencies parse_report].
  rewrite <- (app_nil_r (split LF output)).
  rewrite (scan_lines_outside _ _ _ H). reflexivity.
Qed.

Lemma no_header_no_rows_witness :
  result_frequencies
    (parse_report (unlines [ "02, 05,    7.100,-120.29, -16.04,   0.00";
                             "End Calculated Parameters" ])) = [].
Proof.
  apply no_header_no_rows. vm_compute. repeat constructor.
Defined.

Lemma trimEnd_white (b : string) : all_white_space b = true -> trimEnd b = "".
Proof.
  induction b as [|c b IH]; [reflexivity|]. simpl.
  rewrite andb_true_iff. intros [Hc Hb]. rewrite (IH Hb), Hc. reflexivity.
Qed.

Lemma trimStart_white (b : string) : all_white_space b = true -> trimStart b = "".
Proof.
  induction b as [|c b IH]; [reflexivity|]. simpl.
  rewrite andb_true_iff. intros [Hc Hb]. rewrite Hc. auto.
Qed.

Lemma trimEnd_app_white (s b : string) :
  all_white_space b = true -> trimEnd (s ++ b) = trimEnd s.
Proof.
  intros Hb. induction s as [|c s IH]; simpl.
  - apply trimEnd_white. exact Hb.
  - rewrite IH. reflexivity.
Qed.

(** White space after a line does not count. *)
Lemma trim_app_white (s b : string) :
  all_white_space b = true -> trim (s ++ b) = trim s.
Proof.
  intros Hb. unfold trim. induction s as [|c s IH].
  - change (trimEnd (trimStart b) = ""). rewrite (trimStart_white b Hb). reflexivity.
  - change (trimEnd (if is_white_space c then trimStart (s ++ b) else String c s ++ b)
            = trimEnd (if is_white_space c then trimStart s else String c s)).
    destruct (is_white_space c); [exact IH|].
    apply trimEnd_app_white. exact Hb.
Qed.

Lemma parse_line_trim (i : bool) (fs : list FreqResult) (l1 l2 : string) :
  trim l1 = trim l2 -> parse_line i fs l1 = parse_line i fs l2.
Proof.
  intros H. rewrite !parse_line_eq. unfold row_record, row_fields. rewrite H.
  reflexivity.
Qed.

Lemma scan_lines_padded (pad : string) (ls rest : list string) :
  all_white_space pad = true ->
  forall (i : bool) (fs : list FreqResult),
    scan_lines (map (fun l => l ++ pad) ls ++ rest) i fs = scan_lines (ls ++ rest) i fs.
Proof.
  intros Hpad. induction ls as [|l ls IH]; intros i fs; [reflexivity|].
  cbn [map app scan_lines].
  rewrite (parse_line_trim i fs (l ++ pad) l (trim_app_white l pad Hpad)).
  destruct (parse_line i fs l); [apply IH | reflexivity].
Qed.

Lemma single_line_split (s : string) : single_line s = true -> split LF s = [s].
Proof.
  induction s as [|c s IH]; [reflexivity|]. simpl.
  rewrite andb_true_iff, negb_true_iff. intros [-> Hs]. rewrite (IH Hs). reflexivity.
Qed.

Lemma single_line_app (a b : string) :
  single_line (a ++ b) = single_line a && single_line b.
Proof.
  induction a as [|c a IH]; [reflexivity|]. simpl. rewrite IH. apply andb_assoc.
Qed.

(** The lines of a text made of single lines are those lines, and the
    empty piece after the last line feed. *)
Lemma split_unlines_exact (ls : list string) :
  forallb single_line ls = true -> split LF (unlines ls) = (ls ++ [""])%list.
Proof.
  induction ls as [|l ls IH]; [reflexivity|]. cbn [forallb].
  rewrite andb_true_iff. intros [Hl Hls].
  rewrite split_unlines_cons, (single_line_split l Hl), (IH Hls). reflexivity.
Qed.

Lemma forallb_single_line_padded (pad : string) (ls : list string) :
  single_line pad = true -> forallb single_line ls = true ->
  forallb single_line (map (fun l => l ++ pad) ls) = true.
Proof.
  intros Hpad. induction ls as [|l ls IH]; [reflexivity|]. cbn [forallb map].
  rewrite !andb_true_iff. intros [Hl Hls]. split; [|auto].
  rewrite single_line_app, Hl, Hpad. reflexivity.
Qed.

(** X2.  White space at the end of the lines of a report, a carriage
    return before each line feed in particular, does not change the rows
    that are read. *)
Theorem line_endings_do_not_matter (pad : string) (ls : list string) :
  all_white_space pad = true ->
  single_line pad = true ->
  forallb single_line ls = true ->
  result_frequencies (parse_report (unlines (map (fun l => l ++ pad) ls)))
  = result_frequencies (parse_report (unlines ls)).
Proof.
  intros Hw Hpad Hls. cbn [result_frequencies parse_report].
  rewrite (split_unlines_exact _ (forallb_single_line_padded pad ls Hpad Hls)).
  rewrite (split_unlines_exact _ Hls).
  apply scan_lines_padded. exact Hw.
Qed.

Lemma line_endings_do_not_matter_witness :
  result_frequencies
    (parse_report (unlines (map (fun l => l ++ String (ascii_of_nat 13) "")
                              Demo2.report_lines)))
  = result_frequencies (parse_report (unlines Demo2.report_lines)).
Proof.
  apply (line_endings_do_not_matter (String (ascii_of_nat 13) "") Demo2.report_lines);
    reflexivity.
Defined.

Lemma substring0_spec (n : nat) (s : string) :
  String.prefix (substring0 n s) s = true
  /\ String.length (substring0 n s) = Nat.min n (String.length s).
Proof.
  unfold substring0. revert s. induction n as [|n IH]; intros s.
  - destruct s; split; reflexivity.
  - destruct s as [|c s]; [split; reflexivity|].
    destruct (IH s) as [Hp Hl]. cbn [substring String.prefix String.length].
    destruct (ascii_dec c c) as [_|Hne]; [|congruence].
    split; [exact Hp|]. rewrite Hl. reflexivity.
Qed.

(** X3.  The raw text kept with a parsed report is the beginning of the
    report, cut at 3000 characters. *)
Theorem raw_is_bounded_prefix (output : string) :
  exists kept,
    raw (parse_report output) = Some kept
    /\ String.prefix kept output = true
    /\ String.length kept = Nat.min 3000 (String.length output).
Proof.
  exists (substring0 3000 output). split; [reflexivity|]. apply substring0_spec.
Qed.

Lemma prefix_app_refl (g post : string) : String.prefix g (g ++ post) = true.
Proof.
  induction g as [|c g IH]; simpl; [destruct post; reflexivity|].
  destruct (ascii_dec c c); [exact IH | congruence].
Qed.

Lemma includes_unfold (s needle : string) :
  includes s needle =
  String.prefix needle s
  || match s with EmptyString => false | String _ s' => includes s' needle end.
Proof. destruct s; reflexivity. Qed.

Lemma includes_middle (pre g post : string) : includes (pre ++ g ++ post) g = true.
Proof.
  induction pre as [|c pre IH].
  - change ("" ++ g ++ post) with (g ++ post).
    rewrite includes_unfold, prefix_app_refl. reflexivity.
  - change (String c pre ++ g ++ post) with (String c (pre ++ g ++ post)).
    cbn [includes]. rewrite IH. apply orb_true_r.
Qed.

Lemma digits_dots_spec (s : string) :
  only_digits_dots (digits_dots s) = true /\ exists post, s = digits_dots s ++ post.
Proof.
  induction s as [|c s [IH1 [post IH2]]]; simpl.
  - split; [reflexivity | exists ""; reflexivity].
  - destruct ((match digit_val c with Some _ => true | None => false end)
              || Ascii.eqb c ".") eqn:E.
    + split; [simpl; rewrite E; exact IH1|].
      exists post. rewrite append_cons. f_equal. exact IH2.
    + split; [reflexivity | exists (String c s); reflexivity].
Qed.

Lemma skip_space_suffix (s : string) : exists pre, s = pre ++ skip_space s.
Proof.
  induction s as [|c s [pre IH]]; simpl.
  - exists "". reflexivity.
  - destruct (is_white_space c).
    + exists (String c pre). rewrite append_cons. f_equal. exact IH.
    + exists "". reflexivity.
Qed.

Lemma strip_prefix_ci_suffix (p s r : string) :
  strip_prefix_ci p s = Some r -> exists pre, s = pre ++ r.
Proof.
  revert s; induction p as [|a p IH]; intros s; simpl.
  - intros [= <-]. exists "". reflexivity.
  - destruct s as [|b s]; [discriminate|].
    destruct (Ascii.eqb (lower a) (lower b)); [|discriminate].
    intros H. destruct (IH s H) as [pre ->]. exists (String b pre). reflexivity.
Qed.

Lemma append_assoc3 (a b c : string) : (a ++ b) ++ c = a ++ b ++ c.
Proof.
  induction a as [|x a IH]; [reflexivity|].
  rewrite !append_cons. f_equal. exact IH.
Qed.

Lemma captured_suffix (pre s g : string) : captured s g -> captured (pre ++ s) g.
Proof.
  intros (Ht & Hd & a & b & ->). repeat split; [exact Ht | exact Hd|].
  exists (pre ++ a), b. apply eq_sym, append_assoc3.
Qed.

Lemma muf_value_captured (s g : string) : muf_value s = Some g -> captured s g.
Proof.
  unfold muf_value.
  set (s1 := skip_space s).
  set (s2 := match s1 with
             | String c r => if Ascii.eqb c ":" || Ascii.eqb c "=" then r else s1
             | EmptyString => s1
             end).
  destruct (JsString.truthy (digits_dots (skip_space s2))) eqn:Ht; [|discriminate].
  intros [= <-].
  assert (H3 : captured (skip_space s2) (digits_dots (skip_space s2))).
  { destruct (digits_dots_spec (skip_space s2)) as [Hd [post Hp]].
    repeat split; [exact Ht | exact Hd|]. exists "", post. exact Hp. }
  assert (H2 : captured s2 (digits_dots (skip_space s2))).
  { destruct (skip_space_suffix s2) as [pre Hpre]. rewrite Hpre at 1.
    apply captured_suffix. exact H3. }
  assert (H1 : captured s1 (digits_dots (skip_space s2))).
  { subst s2. destruct s1 as [|c r]; [exact H2|].
    destruct (Ascii.eqb c ":" || Ascii.eqb c "="); [|exact H2].
    change (String c r) with (String c "" ++ r). apply captured_suffix. exact H2. }
  subst s1. destruct (skip_space_suffix s) as [pre Hpre]. rewrite Hpre at 1.
  apply captured_suffix. exact H1.
Qed.

Lemma muf_keyword_captured (keyword s g : string) :
  strip_prefix_ci keyword s ≫= muf_value = Some g -> captured s g.
Proof.
  destruct (strip_prefix_ci keyword s) as [r|] eqn:E; [|discriminate].
  cbn. intros H. destruct (strip_prefix_ci_suffix _ _ _ E) as [pre ->].
  apply captured_suffix, muf_value_captured. exact H.
Qed.

Lemma muf_here_captured (s g : string) : muf_here s = Some g -> captured s g.
Proof.
  unfold muf_here.
  destruct (strip_prefix_ci "BMUF" s ≫= muf_value) eqn:E1.
  { intros [= <-]. exact (muf_keyword_captured _ _ _ E1). }
  destruct (strip_prefix_ci "MUF" s ≫= muf_value) eqn:E2.
  { intros [= <-]. exact (muf_keyword_captured _ _ _ E2). }
  apply muf_keyword_captured.
Qed.

Lemma muf_match_captured (output g : string) :
  muf_match output = Some g -> captured output g.
Proof.
  induction output as [|c rest IH].
  - cbn [muf_match]. destruct (muf_here "") eqn:E; [|discriminate].
    intros [= <-]. exact (muf_here_captured _ _ E).
  - cbn [muf_match]. destruct (muf_here (String c rest)) eqn:E.
    + intros [= <-]. exact (muf_here_captured _ _ E).
    + intros H. change (String c rest) with (String c "" ++ rest).
      apply captured_suffix. auto.
Qed.

(** X4.  When a parsed report has a MUF, it is [parseFloat] of a run of
    digits and dots, not empty, that stands in the report: no sign and no
    exponent is ever read into it. *)
Theorem muf_is_a_run_of_digits (output : string) (m : float) :
  muf (parse_report output) = Some m ->
  exists g,
    m = parseFloat g
    /\ JsString.truthy g = true
    /\ only_digits_dots g = true
    /\ includes output g = true.
Proof.
  cbn [muf parse_report].
  destruct (muf_match output) as [g|] eqn:E; [|discriminate].
  cbn. intros [= <-]. exists g.
  destruct (muf_match_captured _ _ E) as (Ht & Hd & pre & post & ->).
  repeat split; [exact Ht | exact Hd | apply includes_middle].
Qed.

Lemma muf_is_a_run_of_digits_witness :
  exists g,
    parseFloat "21.47" = parseFloat g
    /\ JsString.truthy g = true
    /\ only_digits_dots g = true
    /\ includes Demo.report g = true.
Proof.
  apply (muf_is_a_run_of_digits Demo.report (parseFloat "21.47")).
  vm_compute. reflexivity.
Defined.

(** X5.  The loop of the parser only appends: the rows collected so far
    stay, in order, and at most one row is added per line. *)
Theorem scan_lines_appends (lines : list string) :
  forall (i : bool) (fs : list FreqResult),
    exists more,
      scan_lines lines i fs = (fs ++ more)%list
      /\ (length more <= length lines)%nat.
Proof.
  induction lines as [|line lines IH]; intros i fs.
  - exists []. split; [symmetry; apply app_nil_r | reflexivity].
  - cbn [scan_lines]. rewrite parse_line_eq.
    repeat match goal with
           | |- context [if ?b then _ else _] => destruct b
           end;
      try (destruct (IH true fs) as (more & -> & Hl); exists more;
           split; [reflexivity | simpl; lia]);
      try (destruct (IH i fs) as (more & -> & Hl); exists more;
           split; [reflexivity | simpl; lia]);
      try (exists []; split; [symmetry; apply app_nil_r | simpl; lia]).
    destruct (IH i (fs ++ [row_record line])%list) as (more & -> & Hl).
    exists (row_record line :: more). split; [rewrite <- app_assoc; reflexivity|].
    simpl. lia.
Qed.

(** ** The input serializer, further *)

Lemma single_line_app_intro (a b : string) :
  single_line a = true -> single_line b = true -> single_line (a ++ b) = true.
Proof. intros Ha Hb. rewrite single_line_app, Ha, Hb. reflexivity. Qed.

Lemma single_line_string_of_uint (d : Decimal.uint) :
  single_line (NilEmpty.string_of_uint d) = true.
Proof. induction d; simpl; auto. Qed.

Lemma single_line_digits (n : Z) : single_line (digits n) = true.
Proof.
  unfold digits, NilZero.string_of_uint.
  destruct (N.to_uint (Z.to_N n)); try reflexivity;
    apply (single_line_string_of_uint (_ _)).
Qed.

Lemma single_line_zeros (k : nat) : single_line (zeros k) = true.
Proof. induction k; simpl; auto. Qed.

Lemma single_line_substring (s : string) :
  single_line s = true ->
  forall n m, single_line (String.substring n m s) = true.
Proof.
  induction s as [|c s IH]; intros Hs n m.
  - destruct n, m; reflexivity.
  - simpl in Hs. apply andb_true_iff in Hs as [Hc Hs].
    destruct n as [|n]; [destruct m as [|m]|]; simpl; auto.
    rewrite Hc. simpl. auto.
Qed.

Lemma single_line_fixed_digits (f : nat) (n : Z) :
  single_line (fixed_digits f n) = true.
Proof.
  unfold fixed_digits. destruct f as [|f]; [apply single_line_digits|].
  set (m' := if (String.length (digits n) <=? S f)%nat
             then zeros (S f + 1 - String.length (digits n)) ++ digits n
             else digits n).
  assert (Hm : single_line m' = true).
  { subst m'. destruct (String.length (digits n) <=? S f)%nat;
      [apply single_line_app_intro; [apply single_line_zeros|]|];
      apply single_line_digits. }
  repeat apply single_line_app_intro; try reflexivity;
    apply single_line_substring; exact Hm.
Qed.

Section SingleLine.

Variable sh : float -> string.
Hypothesis sh_single_line : forall x, single_line (sh x) = true.

Lemma single_line_toFixed (f : nat) (x : float) : single_line (toFixed sh f x) = true.
Proof.
  unfold toFixed. destruct (Prim2SF x) as [z|[|]| |neg m e]; try reflexivity.
  - apply single_line_fixed_digits.
  - apply single_line_app_intro; [destruct neg; reflexivity|].
    destruct (at_least_1e21 (Z.pos m) e);
      [apply sh_single_line | apply single_line_fixed_digits].
Qed.

Lemma single_line_Number_toString (x : float) : single_line (Number_toString sh x) = true.
Proof.
  unfold Number_toString. destruct (Prim2SF x) as [z|[|]| |neg m e]; try reflexivity.
  repeat match goal with
         | |- context [if ?b then _ else _] => destruct b
         end;
    try apply sh_single_line;
    (apply single_line_app_intro; [reflexivity | apply single_line_digits]).
Qed.

Lemma single_line_join (sep : string) (parts : list string) :
  single_line sep = true -> forallb single_line parts = true ->
  single_line (join sep parts) = true.
Proof.
  intros Hsep. induction parts as [|x rest IH]; [reflexivity|].
  cbn [forallb]. rewrite andb_true_iff. intros [Hx Hrest].
  destruct rest as [|y rest]; [exact Hx|].
  change (join sep (x :: y :: rest)) with (x ++ sep ++ join sep (y :: rest)).
  repeat apply single_line_app_intro; auto.
Qed.

Lemma forallb_single_line_toFixed (f : nat) (xs : list float) :
  forallb single_line (map (toFixed sh f) xs) = true.
Proof.
  induction xs as [|x xs IH]; [reflexivity|]. cbn [map forallb].
  rewrite single_line_toFixed. exact IH.
Qed.

End SingleLine.

Lemma generateInputFile_unlines (pf : Platform) (params : Params) :
  generateInputFile pf params = unlines (input_lines pf params).
Proof. reflexivity. Qed.

(** X6.  When the noise category of the request and the data directory of
    the configuration have no line feed in them (as for every request the
    endpoints make, which leave the noise category out), the engine input
    is exactly the 35 lines of the template, in order, each ended by a
    line feed: no number of the request can add or break a line. *)
Theorem generateInputFile_35_lines (pf : Platform) (params : Params) :
  (forall x, single_line (Number_toString_shortest pf x) = true) ->
  single_line (ITURHFPROP_DATA pf) = true ->
  single_line (default "RESIDENTIAL" (manMadeNoise params)) = true ->
  split LF (generateInputFile pf params) = (input_lines pf params ++ [""])%list
  /\ length (input_lines pf params) = 35%nat.
Proof.
  intros Hsh Hdata Hnoise. split; [|reflexivity].
  rewrite generateInputFile_unlines. apply split_unlines_exact.
  pose proof (single_line_toFixed _ Hsh) as Hfixed.
  pose proof (single_line_Number_toString _ Hsh) as Hstr.
  pose proof (forallb_single_line_toFixed _ Hsh) as Hlist.
  unfold input_lines, quoted, fixed, str. cbn [forallb].
  repeat (apply andb_true_intro; split);
    repeat apply single_line_app_intro;
    try reflexivity; try apply Hfixed; try apply Hstr; try assumption.
  apply single_line_join; [reflexivity | apply Hlist].
Qed.

Lemma generateInputFile_35_lines_witness :
  split LF (generateInputFile Demo.healthy Demo.params)
  = (input_lines Demo.healthy Demo.params ++ [""])%list
  /\ length (input_lines Demo.healthy Demo.params) = 35%nat.
Proof.
  apply (generateInputFile_35_lines Demo.healthy Demo.params); reflexivity.
Defined.

(** X7.  A request whose hour is missing (NaN) is serialized with the line
    [Path.hour 12]. *)
Theorem generateInputFile_missing_hour (pf : Platform) (params : Params) :
  isNaN (hour params) = true ->
  In "Path.hour 12" (split LF (generateInputFile pf params)).
Proof.
  intros Hnan. apply In_split_unlines; [|reflexivity].
  do 14 right. left. unfold path_hour. rewrite Hnan. vm_compute. reflexivity.
Qed.

Lemma generateInputFile_missing_hour_witness :
  In "Path.hour 12"
     (split LF (generateInputFile Demo.healthy
                  (hourly_params Demo.healthy Demo.query 0 nan))).
Proof.
  apply (generateInputFile_missing_hour Demo.healthy
           (hourly_params Demo.healthy Demo.query 0 nan)).
  reflexivity.
Defined.

(** X8.  A request that names no frequencies is serialized with the 11
    frequencies of the band table, from 2.000 to 28.100 MHz, three
    decimals each, separated by a comma and a space. *)
Theorem generateInputFile_default_frequencies (pf : Platform) (params : Params) :
  frequencies params = None ->
  In "Path.frequency 2.000, 3.500, 5.300, 7.100, 10.100, 14.100, 18.100, 21.100, 24.900, 27.000, 28.100"
     (split LF (generateInputFile pf params)).
Proof.
  intros Hnone. apply In_split_unlines; [|vm_compute; reflexivity].
  do 16 right. left. rewrite Hnone. vm_compute. reflexivity.
Qed.

Lemma generateInputFile_default_frequencies_witness :
  In "Path.frequency 2.000, 3.500, 5.300, 7.100, 10.100, 14.100, 18.100, 21.100, 24.900, 27.000, 28.100"
     (split LF (generateInputFile Demo.healthy Demo.params)).
Proof.
  apply (generateInputFile_default_frequencies Demo.healthy Demo.params). reflexivity.
Defined.

(** ** The engine runner, further *)

Lemma parseOutputFile_eq (pf : Platform) (p : string) (w : World) :
  parseOutputFile pf p w = (Returned (parsed_at pf p w), w).
Proof.
  unfold parseOutputFile, parsed_at, try_catch, bind.
  pose proof (keeps_world_readFileSync pf p w) as Hw.
  destruct (readFileSync pf p w) as [[output|err] w']; simpl in Hw; subst w';
    reflexivity.
Qed.

Lemma run_engine_eq (pf : Platform) (cmd : string) (w : World) :
  run_engine pf cmd w =
  let rc := run_child pf cmd 30000 (engine_library_path pf) w in
  (Returned (child_stdout (fst rc), child_stderr (fst rc)), snd rc).
Proof.
  unfold run_engine, try_catch, bind, execSync, engine_library_path.
  destruct (run_child pf cmd 30000 ("/opt/iturhfprop:" ++ env_or pf "LD_LIBRARY_PATH" "") w)
    as [[failure|out] w']; reflexivity.
Qed.

(** The [try] block once the input file is written. *)
Lemma try_block_after_write (pf : Platform) (params : Params) (ip op : string)
    (w0 w1 : World) :
  writeFileSync pf ip (generateInputFile pf params) w0 = (Returned tt, w1) ->
  try_block pf params ip op w0 =
  let rc := run_child pf (ITURHFPROP_PATH pf ++ " " ++ ip ++ " " ++ op) 30000
              (engine_library_path pf) w1 in
  (match fst (check_output pf op (snd rc)) with
   | Returned _ =>
       Returned (with_diagnostics (parsed_at pf op (snd rc)) (clock (snd rc) - clock w1)
                   (child_stdout (fst rc)) (child_stderr (fst rc))
                   (generateInputFile pf params) params)
   | Thrown e => Thrown e
   end,
   snd rc).
Proof.
  intros Hwrite. unfold try_block, bind. rewrite Hwrite.
  unfold Date_now at 1. rewrite run_engine_eq. cbv zeta.
  set (rc := run_child pf (ITURHFPROP_PATH pf ++ " " ++ ip ++ " " ++ op) 30000
               (engine_library_path pf) w1).
  unfold Date_now.
  pose proof (check_output_world pf op (snd rc)) as Hw.
  destruct (check_output pf op (snd rc)) as [[[]|e] w3]; simpl in Hw; subst w3;
    [|reflexivity].
  rewrite parseOutputFile_eq. reflexivity.
Qed.

Lemma try_block_write_thrown (pf : Platform) (params : Params) (ip op : string)
    (w0 w1 : World) (e : Error) :
  writeFileSync pf ip (generateInputFile pf params) w0 = (Thrown e, w1) ->
  try_block pf params ip op w0 = (Thrown e, w1).
Proof. intros Hwrite. unfold try_block, bind. rewrite Hwrite. reflexivity. Qed.

(** X9.  Once the scratch directory is there and the input file is
    written, the engine is run once, on the command line made of its path,
    the input path and the output path, with a timeout of 30000 ms, in a
    world where the input file holds the serialized request; the result is
    the parse of the output file the engine leaves, with the time the
    engine took and what it wrote: its standard output and no standard
    error when it ended well. *)
Theorem runPrediction_runs_engine_once (pf : Platform) (params : Params)
    (w w0 w1 : World) :
  let ip := input_path (next_id w) in
  let op := output_path (next_id w) in
  ensure_temp_dir pf (snd (randomHex w)) = (Returned tt, w0) ->
  writeFileSync pf ip (generateInputFile pf params) w0 = (Returned tt, w1) ->
  let rc := run_child pf (engine_command pf w) 30000 (engine_library_path pf) w1 in
  nodes w1 !! ip = Some (File (generateInputFile pf params))
  /\ fst (runPrediction pf params w) =
     match fst (check_output pf op (snd rc)) with
     | Returned _ =>
         Returned (with_diagnostics (parsed_at pf op (snd rc)) (clock (snd rc) - clock w1)
                     (child_stdout (fst rc)) (child_stderr (fst rc))
                     (generateInputFile pf params) params)
     | Thrown e => Thrown e
     end
  /\ (forall out, fst rc = inr out -> child_stdout (fst rc) = out /\ child_stderr (fst rc) = "").
Proof.
  intros ip op Hdir Hwrite rc. split; [|split].
  - revert Hwrite. unfold writeFileSync, fs_call.
    destruct (fs_fault pf (writeFile_call ip) w0); [discriminate|].
    destruct (nodes w0 !! ip) as [[c|]|]; try discriminate;
      intros [= <-]; apply lookup_insert_eq.
  - rewrite runPrediction_eq, Hdir. cbv zeta. cbn [fst].
    fold ip op. rewrite (try_block_after_write _ _ _ _ _ _ Hwrite). reflexivity.
  - intros out ->. split; reflexivity.
Qed.

Lemma runPrediction_runs_engine_once_witness :
  let w := Demo.start in
  let w1 := snd (writeFileSync Demo.healthy (input_path Demo.token)
                   (generateInputFile Demo.healthy Demo.params)
                   (snd (ensure_temp_dir Demo.healthy (snd (randomHex w))))) in
  let rc := run_child Demo.healthy (engine_command Demo.healthy w) 30000
              (engine_library_path Demo.healthy) w1 in
  nodes w1 !! input_path (next_id w) = Some (File (generateInputFile Demo.healthy Demo.params))
  /\ fst (runPrediction Demo.healthy Demo.params w) =
     match fst (check_output Demo.healthy (output_path (next_id w)) (snd rc)) with
     | Returned _ =>
         Returned (with_diagnostics (parsed_at Demo.healthy (output_path (next_id w)) (snd rc))
                     (clock (snd rc) - clock w1)
                     (child_stdout (fst rc)) (child_stderr (fst rc))
                     (generateInputFile Demo.healthy Demo.params) Demo.params)
     | Thrown e => Thrown e
     end
  /\ (forall out, fst rc = inr out -> child_stdout (fst rc) = out /\ child_stderr (fst rc) = "").
Proof.
  cbv zeta.
  apply (runPrediction_runs_engine_once Demo.healthy Demo.params Demo.start
           (snd (ensure_temp_dir Demo.healthy (snd (randomHex Demo.start))))).
  - vm_compute. reflexivity.
  - vm_compute. reflexivity.
Defined.

(** X10.  When the engine has run and left no output file (and the
    directory [/tmp] can be listed), [runPrediction] returns, it does not
    throw: the result has no rows and its error field is the message of
    the failed read of the output file. *)
Theorem runPrediction_missing_report (pf : Platform) (params : Params)
    (w w0 w1 : World) :
  let ip := input_path (next_id w) in
  let op := output_path (next_id w) in
  ensure_temp_dir pf (snd (randomHex w)) = (Returned tt, w0) ->
  writeFileSync pf ip (generateInputFile pf params) w0 = (Returned tt, w1) ->
  let rc := run_child pf (engine_command pf w) 30000 (engine_library_path pf) w1 in
  nodes (snd rc) !! op = None ->
  nodes (snd rc) !! "/tmp" = Some Dir ->
  fs_fault pf (readdir_call "/tmp") (snd rc) = None ->
  fs_fault pf (readFile_call op) (snd rc) = None ->
  exists results,
    fst (runPrediction pf params w) = Returned results
    /\ result_frequencies results = []
    /\ error results = Some ("ENOENT: no such file or directory, open '" ++ op ++ "'")
    /\ execStdout results = Some (child_stdout (fst rc))
    /\ execStderr results = Some (child_stderr (fst rc)).
Proof.
  intros ip op Hdir Hwrite rc Hnone Htmp Hlist Hread.
  assert (Hcheck : fst (check_output pf op (snd rc)) = Returned tt).
  { unfold check_output, bind, existsSync, readdirSync, fs_call.
    rewrite Hnone. rewrite bool_decide_eq_false_2 by (intros [x Hx]; discriminate).
    rewrite Hlist, Htmp. reflexivity. }
  assert (Hparsed : parsed_at pf op (snd rc)
                    = parse_failure (SystemError (readFile_call op) ENOENT)).
  { unfold parsed_at, readFileSync, fs_call. rewrite Hread, Hnone. reflexivity. }
  exists (with_diagnostics (parse_failure (SystemError (readFile_call op) ENOENT))
            (clock (snd rc) - clock w1) (child_stdout (fst rc)) (child_stderr (fst rc))
            (generateInputFile pf params) params).
  split; [|repeat split].
  rewrite runPrediction_eq, Hdir. cbv zeta. cbn [fst].
  fold ip op. rewrite (try_block_after_write _ _ _ _ _ _ Hwrite). cbv zeta. cbn [fst].
  change (run_child pf (ITURHFPROP_PATH pf ++ " " ++ ip ++ " " ++ op) 30000
            (engine_library_path pf) w1) with rc.
  rewrite Hcheck, Hparsed. reflexivity.
Qed.

Lemma runPrediction_missing_report_witness :
  exists results,
    fst (runPrediction Demo.timing_out Demo.params Demo.start) = Returned results
    /\ result_frequencies results = []
    /\ error results
       = Some ("ENOENT: no such file or directory, open '"
                 ++ output_path (next_id Demo.start) ++ "'")
    /\ execStdout results = Some ""
    /\ execStderr results = Some "".
Proof.
  apply (runPrediction_missing_report Demo.timing_out Demo.params Demo.start
           (snd (ensure_temp_dir Demo.timing_out (snd (randomHex Demo.start))))
           (snd (writeFileSync Demo.timing_out (input_path Demo.token)
                   (generateInputFile Demo.timing_out Demo.params)
                   (snd (ensure_temp_dir Demo.timing_out (snd (randomHex Demo.start)))))));
    vm_compute; reflexivity.
Defined.

(** X11.  Every result [runPrediction] returns comes from a run in which
    the scratch directory was there or made, the input file was written
    and the engine was run, and it carries the diagnostics of that run: the
    serialized input, the time the engine took, what the engine wrote to
    its standard output and standard error, and the echo of the request;
    its rows, MUF, raw text and error field are those of the parse of the
    output file as the engine left it. *)
Theorem runPrediction_result_has_diagnostics (pf : Platform) (params : Params)
    (w : World) (results : Results) :
  fst (runPrediction pf params w) = Returned results ->
  exists w0 w1,
    ensure_temp_dir pf (snd (randomHex w)) = (Returned tt, w0)
    /\ writeFileSync pf (input_path (next_id w)) (generateInputFile pf params) w0
       = (Returned tt, w1)
    /\ let rc := run_child pf (engine_command pf w) 30000 (engine_library_path pf) w1 in
       let parsed := parsed_at pf (output_path (next_id w)) (snd rc) in
       fst (check_output pf (output_path (next_id w)) (snd rc)) = Returned tt
       /\ inputContent results = Some (generateInputFile pf params)
       /\ elapsed results = Some (clock (snd rc) - clock w1)
       /\ execStdout results = Some (child_stdout (fst rc))
       /\ execStderr results = Some (child_stderr (fst rc))
       /\ result_params results
          = Some {| echo_txLat := txLat params; echo_txLon := txLon params;
                    echo_rxLat := rxLat params; echo_rxLon := rxLon params;
                    echo_hour := hour params; echo_month := month params;
                    echo_ssn := ssn params |}
       /\ result_frequencies results = result_frequencies parsed
       /\ muf results = muf parsed
       /\ raw results = raw parsed
       /\ error results = error parsed.
Proof.
  rewrite runPrediction_eq.
  destruct (ensure_temp_dir pf (snd (randomHex w))) as [[[]|e] w0] eqn:Hdir; [|discriminate].
  cbv zeta. cbn [fst].
  destruct (writeFileSync pf (input_path (next_id w)) (generateInputFile pf params) w0)
    as [[[]|e] w1] eqn:Hwrite.
  - rewrite (try_block_after_write _ _ _ _ _ _ Hwrite). cbv zeta. cbn [fst].
    fold (engine_command pf w).
    destruct (fst (check_output pf (output_path (next_id w))
                     (snd (run_child pf (engine_command pf w) 30000
                             (engine_library_path pf) w1)))) as [[]|e] eqn:Hcheck;
      [|discriminate].
    intros [= <-]. exists w0, w1. split; [reflexivity|]. split; [exact Hwrite|].
    cbv zeta.
    cbn [with_diagnostics result_frequencies muf raw error execStdout execStderr
           elapsed inputContent result_params].
    split; [exact Hcheck|].
    repeat match goal with |- _ /\ _ => split end; reflexivity.
  - rewrite (try_block_write_thrown _ _ _ _ _ _ _ Hwrite). discriminate.
Qed.

Lemma runPrediction_result_has_diagnostics_witness :
  let pf := Demo.healthy in
  let w := Demo.start in
  let results := with_diagnostics (parse_report Demo.report) 1500 "done" ""
                   (generateInputFile pf Demo.params) Demo.params in
  exists w0 w1,
    ensure_temp_dir pf (snd (randomHex w)) = (Returned tt, w0)
    /\ writeFileSync pf (input_path (next_id w)) (generateInputFile pf Demo.params) w0
       = (Returned tt, w1)
    /\ let rc := run_child pf (engine_command pf w) 30000 (engine_library_path pf) w1 in
       let parsed := parsed_at pf (output_path (next_id w)) (snd rc) in
       fst (check_output pf (output_path (next_id w)) (snd rc)) = Returned tt
       /\ inputContent results = Some (generateInputFile pf Demo.params)
       /\ elapsed results = Some (clock (snd rc) - clock w1)
       /\ execStdout results = Some (child_stdout (fst rc))
       /\ execStderr results = Some (child_stderr (fst rc))
       /\ result_params results
          = Some {| echo_txLat := txLat Demo.params; echo_txLon := txLon Demo.params;
                    echo_rxLat := rxLat Demo.params; echo_rxLon := rxLon Demo.params;
                    echo_hour := hour Demo.params; echo_month := month Demo.params;
                    echo_ssn := ssn Demo.params |}
       /\ result_frequencies results = result_frequencies parsed
       /\ muf results = muf parsed
       /\ raw results = raw parsed
       /\ error results = error parsed.
Proof.
  cbv zeta.
  apply (runPrediction_result_has_diagnostics Demo.healthy Demo.params Demo.start).
  vm_compute. reflexivity.
Defined.

(** X12.  When the input file cannot be written, [runPrediction] throws
    the error of the write after the cleanup: the engine is never run. *)
Theorem runPrediction_write_failure (pf : Platform) (params : Params)
    (w w0 w1 : World) (e : Error) :
  let ip := input_path (next_id w) in
  let op := output_path (next_id w) in
  ensure_temp_dir pf (snd (randomHex w)) = (Returned tt, w0) ->
  writeFileSync pf ip (generateInputFile pf params) w0 = (Thrown e, w1) ->
  runPrediction pf params w = (Thrown e, snd (cleanup pf ip op w0))
  /\ w1 = w0 /\ is_fs_error e = true.
Proof.
  intros ip op Hdir Hwrite.
  assert (Hw : w1 = w0 /\ is_fs_error e = true).
  { revert Hwrite. unfold writeFileSync, fs_call.
    destruct (fs_fault pf (writeFile_call ip) w0).
    - intros [= <- <-]. auto.
    - destruct (nodes w0 !! ip) as [[c|]|]; try discriminate.
      intros [= <- <-]. auto. }
  split; [|exact Hw]. destruct Hw as [-> _].
  rewrite runPrediction_eq, Hdir. cbv zeta. fold ip op.
  rewrite (try_block_write_thrown _ _ _ _ _ _ _ Hwrite). reflexivity.
Qed.

Lemma runPrediction_write_failure_witness :
  let pf := Demo.refusing_writes [Demo.token] in
  let w0 := snd (ensure_temp_dir pf (snd (randomHex Demo.start))) in
  let e := SystemError (writeFile_call (input_path Demo.token)) "EACCES: permission denied" in
  runPrediction pf Demo.params Demo.start
  = (Thrown e, snd (cleanup pf (input_path (next_id Demo.start))
                      (output_path (next_id Demo.start)) w0))
  /\ w0 = w0 /\ is_fs_error e = true.
Proof.
  cbv zeta.
  apply (runPrediction_write_failure (Demo.refusing_writes [Demo.token]) Demo.params
           Demo.start); vm_compute; reflexivity.
Defined.

(** *** What a run leaves alone *)

Lemma preserves_ret (p : string) {A} (a : A) : preserves p (ret a).
Proof. intros w. reflexivity. Qed.

Lemma preserves_bind (p : string) {A B} (c : M A) (k : A -> M B) :
  preserves p c -> (forall a, preserves p (k a)) -> preserves p (bind c k).
Proof.
  intros Hc Hk w. unfold bind. specialize (Hc w).
  destruct (c w) as [[a|e] w0]; simpl in Hc; [|exact Hc].
  rewrite <- Hc. apply Hk.
Qed.

Lemma preserves_try_catch (p : string) {A} (c : M A) (h : Error -> M A) :
  preserves p c -> (forall e, preserves p (h e)) -> preserves p (try_catch c h).
Proof.
  intros Hc Hh w. unfold try_catch. specialize (Hc w).
  destruct (c w) as [[a|e] w0]; simpl in Hc; [exact Hc|].
  rewrite <- Hc. apply Hh.
Qed.

Lemma preserves_try_finally (p : string) {A} (c : M A) (f : M unit) :
  preserves p c -> preserves p f -> preserves p (try_finally c f).
Proof.
  intros Hc Hf w. unfold try_finally. specialize (Hc w).
  destruct (c w) as [o w0]; simpl in Hc. specialize (Hf w0).
  destruct (f w0) as [[u|e] w1]; simpl in *; congruence.
Qed.

Lemma preserves_keeps_world (p : string) {A} (c : M A) :
  keeps_world c -> preserves p c.
Proof. intros Hc w. rewrite Hc. reflexivity. Qed.

Lemma preserves_when (p : string) (b : bool) (c : M unit) :
  preserves p c -> preserves p (when b c).
Proof. destruct b; [auto | intros _; apply preserves_ret]. Qed.

Lemma preserves_existsSync (p q : string) : preserves p (existsSync q).
Proof. intros w. reflexivity. Qed.

Lemma preserves_Date_now (p : string) : preserves p Date_now.
Proof. intros w. reflexivity. Qed.

Lemma preserves_call (pf : Platform) (p : string) {A} (c : FsCall) (k : M A) :
  preserves p k -> preserves p (fs_call pf c k).
Proof.
  intros Hk w. unfold fs_call. destruct (fs_fault pf c w); [reflexivity | apply Hk].
Qed.

Lemma preserves_writeFileSync (pf : Platform) (p q data : string) :
  p <> q -> preserves p (writeFileSync pf q data).
Proof.
  intros Hne. apply preserves_call. intros w.
  destruct (nodes w !! q) as [[c|]|]; simpl;
    try reflexivity; apply lookup_insert_ne; congruence.
Qed.

Lemma preserves_unlinkSync (pf : Platform) (p q : string) :
  p <> q -> preserves p (unlinkSync pf q).
Proof.
  intros Hne. apply preserves_call. intros w.
  destruct (nodes w !! q) as [[c|]|]; simpl;
    try reflexivity; apply lookup_delete_ne; congruence.
Qed.

Lemma make_dir_lookup (d p : string) (m : gmap string Node) :
  is_Some (m !! p) \/ p <> d -> make_dir d m !! p = m !! p.
Proof.
  unfold make_dir. intros H. destruct (m !! d) eqn:E; [reflexivity|].
  destruct (decide (p = d)) as [->|Hne].
  - destruct H as [[x Hx]|H]; [congruence | contradiction].
  - apply lookup_insert_ne. congruence.
Qed.

Lemma make_dir_made (d : string) (m : gmap string Node) : is_Some (make_dir d m !! d).
Proof.
  unfold make_dir. destruct (m !! d) eqn:E.
  - rewrite E. eauto.
  - rewrite lookup_insert_eq. eauto.
Qed.

(** Making directories changes no path that names something already, and
    no path outside the ones made. *)
Lemma make_dirs_lookup (ds : list string) (p : string) (m : gmap string Node) :
  is_Some (m !! p) \/ ~ In p ds -> foldr make_dir m ds !! p = m !! p.
Proof.
  induction ds as [|d ds IH]; intros H; [reflexivity|]. cbn [foldr].
  assert (Hrest : foldr make_dir m ds !! p = m !! p).
  { apply IH. destruct H as [H|H]; [left; exact H|].
    right. intros Hin. apply H. right. exact Hin. }
  rewrite make_dir_lookup; [exact Hrest|].
  destruct H as [H|H].
  - left. rewrite Hrest. exact H.
  - right. intros ->. apply H. left. reflexivity.
Qed.

Lemma make_dirs_made (ds : list string) (d : string) (m : gmap string Node) :
  In d ds -> is_Some (foldr make_dir m ds !! d).
Proof.
  induction ds as [|d' ds IH]; intros Hin; [destruct Hin|]. cbn [foldr].
  destruct Hin as [->|Hin]; [apply make_dir_made|].
  rewrite make_dir_lookup by (left; apply IH; exact Hin). apply IH. exact Hin.
Qed.

Lemma mkdirSync_returned (pf : Platform) (q : string) (w w' : World) :
  mkdirSync pf q w = (Returned tt, w') ->
  nodes w' = foldr make_dir (nodes w) (q :: parent_dirs q).
Proof.
  unfold mkdirSync, fs_call.
  destruct (fs_fault pf (mkdir_call q) w); [discriminate|].
  destruct (existsb (is_file w) (parent_dirs q)); [discriminate|].
  destruct (nodes w !! q) as [[c|]|]; try discriminate; intros [= <-]; reflexivity.
Qed.

Lemma mkdirSync_frame (pf : Platform) (q : string) (w : World) (p : string) :
  is_Some (nodes w !! p) \/ (p <> q /\ ~ In p (parent_dirs q)) ->
  nodes (snd (mkdirSync pf q w)) !! p = nodes w !! p.
Proof.
  intros H. unfold mkdirSync, fs_call.
  destruct (fs_fault pf (mkdir_call q) w); [reflexivity|].
  destruct (existsb (is_file w) (parent_dirs q)); [reflexivity|].
  assert (Hp : is_Some (nodes w !! p) \/ ~ In p (q :: parent_dirs q)).
  { destruct H as [H|[H1 H2]]; [left; exact H|].
    right. intros [Hq|Hin]; [apply H1; symmetry; exact Hq | apply H2; exact Hin]. }
  destruct (nodes w !! q) as [[c|]|]; try reflexivity;
    cbn [snd with_nodes nodes]; apply make_dirs_lookup; exact Hp.
Qed.

Lemma preserves_cleanup (pf : Platform) (p ip op : string) :
  p <> ip -> p <> op -> preserves p (cleanup pf ip op).
Proof.
  intros Hi Ho. unfold cleanup, cleanup_block, unlink_if_exists.
  apply preserves_try_catch; [|intros e; apply preserves_ret].
  repeat (first [ apply preserves_bind | intros ? | apply preserves_existsSync
                | apply preserves_when | apply preserves_unlinkSync; assumption ]).
Qed.

(** The check of the scratch directory changes no path that names
    something already, and no path but the directory and [/tmp] above it. *)
Lemma ensure_temp_dir_frame (pf : Platform) (w : World) (p : string) :
  is_Some (nodes w !! p) \/ (p <> TEMP_DIR /\ p <> "/tmp") ->
  nodes (snd (ensure_temp_dir pf w)) !! p = nodes w !! p.
Proof.
  intros H. unfold ensure_temp_dir, bind, existsSync, when.
  case_bool_decide; cbn [negb]; [reflexivity|].
  apply mkdirSync_frame. destruct H as [H|[H1 H2]]; [left; exact H|].
  right. split; [exact H1|]. intros Hin.
  change (parent_dirs TEMP_DIR) with ["/tmp"] in Hin.
  destruct Hin as [Hin|[]]. apply H2. symmetry. exact Hin.
Qed.

Lemma preserves_try_block (pf : Platform) (params : Params) (p ip op : string) :
  p <> ip ->
  (forall v, nodes (snd (run_child pf (ITURHFPROP_PATH pf ++ " " ++ ip ++ " " ++ op)
                           30000 (engine_library_path pf) v)) !! p
             = nodes v !! p) ->
  preserves p (try_block pf params ip op).
Proof.
  intros Hi Hengine. unfold try_block.
  apply preserves_bind; [apply preserves_writeFileSync; exact Hi|]. intros _.
  apply preserves_bind; [apply preserves_Date_now|]. intros startTime.
  apply preserves_bind.
  { intros w. rewrite run_engine_eq. apply Hengine. }
  intros io.
  apply preserves_bind; [apply preserves_Date_now|]. intros endTime.
  apply preserves_bind.
  { apply preserves_keeps_world. intros w. apply check_output_world. }
  intros _.
  apply preserves_bind; [|intros results; apply preserves_ret].
  intros w. rewrite parseOutputFile_eq. reflexivity.
Qed.

(** X13.  A run of [runPrediction] changes nothing of the file system but
    its own two scratch files and, where they were missing, the scratch
    directory and the directory [/tmp] above it, beyond what the engine
    process itself changes: a path that is none of the two scratch files,
    that names something already or is neither of the two directories, and
    that the engine leaves alone, is after the call what it was before. *)
Theorem runPrediction_leaves_other_paths (pf : Platform) (params : Params)
    (w : World) (p : string) :
  is_Some (nodes w !! p) \/ (p <> TEMP_DIR /\ p <> "/tmp") ->
  p <> input_path (next_id w) ->
  p <> output_path (next_id w) ->
  (forall v, nodes (snd (run_child pf (engine_command pf w) 30000
                           (engine_library_path pf) v)) !! p
             = nodes v !! p) ->
  nodes (snd (runPrediction pf params w)) !! p = nodes w !! p.
Proof.
  intros Hd Hi Ho Hengine. rewrite runPrediction_eq.
  destruct (randomHex_eq w) as [_ Hr]. rewrite <- Hr in Hd |- *.
  pose proof (ensure_temp_dir_frame pf (snd (randomHex w)) p Hd) as Hensure.
  destruct (ensure_temp_dir pf (snd (randomHex w))) as [[[]|e] w0];
    simpl in Hensure; [|exact Hensure].
  cbv zeta. cbn [snd]. rewrite <- Hensure.
  rewrite (preserves_cleanup pf p _ _ Hi Ho).
  apply (preserves_try_block pf params p _ _ Hi). exact Hengine.
Qed.

Lemma runPrediction_leaves_other_paths_witness :
  nodes (snd (runPrediction Demo.healthy Demo.params Demo.start)) !! "/tmp"
  = nodes Demo.start !! "/tmp"
  /\ nodes (snd (runPrediction Demo.healthy Demo.params
                   {| nodes := ∅; clock := 0; entropy := [Demo.token] |}))
       !! "/opt/iturhfprop/ITURHFProp"
     = nodes {| nodes := ∅; clock := 0; entropy := [Demo.token] |}
         !! "/opt/iturhfprop/ITURHFProp".
Proof.
  split.
  - apply (runPrediction_leaves_other_paths Demo.healthy Demo.params Demo.start "/tmp").
    + left. vm_compute. eauto.
    + discriminate.
    + discriminate.
    + intros v. apply lookup_insert_ne. discriminate.
  - apply (runPrediction_leaves_other_paths Demo.healthy Demo.params
             {| nodes := ∅; clock := 0; entropy := [Demo.token] |}
             "/opt/iturhfprop/ITURHFProp").
    + right. split; discriminate.
    + discriminate.
    + discriminate.
    + intros v. apply lookup_insert_ne. discriminate.
Defined.

(** ** The endpoints, further *)

(** X14.  A request without one of the four coordinates (absent or empty)
    is answered 400 by each of the three prediction endpoints, and nothing
    is run: the world is left as it was. *)
Theorem missing_coordinates_400 (pf : Platform) (query : Query) (w : World) :
  missing_coordinates query = true ->
  api_predict pf query w
  = (Returned {| statusCode := 400;
                 body := ErrorBody "Missing required coordinates (txLat, txLon, rxLat, rxLon)" |},
     w)
  /\ api_predict_hourly pf query w
     = (Returned {| statusCode := 400;
                    body := ErrorBody "Missing required coordinates (txLat, txLon, rxLat, rxLon)" |},
        w)
  /\ api_bands pf query w
     = (Returned {| statusCode := 400; body := ErrorBody "Missing required coordinates" |},
        w).
Proof.
  intros H. unfold api_predict, api_predict_hourly, api_bands, try_catch.
  rewrite H. repeat split.
Qed.

Lemma missing_coordinates_400_witness :
  let w := Demo.start in
  let query : Query := {[ "txLat" := "40.7"; "txLon" := ""; "rxLat" := "51.5" ]} in
  api_predict Demo.healthy query w
  = (Returned {| statusCode := 400;
                 body := ErrorBody "Missing required coordinates (txLat, txLon, rxLat, rxLon)" |},
     w)
  /\ api_predict_hourly Demo.healthy query w
     = (Returned {| statusCode := 400;
                    body := ErrorBody "Missing required coordinates (txLat, txLon, rxLat, rxLon)" |},
        w)
  /\ api_bands Demo.healthy query w
     = (Returned {| statusCode := 400; body := ErrorBody "Missing required coordinates" |},
        w).
Proof.
  cbv zeta. apply (missing_coordinates_400 Demo.healthy). vm_compute. reflexivity.
Defined.

(** [a || 100] is never 0 and never NaN. *)
Lemma or_else_100_truthy (a : float) :
  JsNumber.truthy (or_else a 100%float) = true.
Proof. unfold or_else. destruct (JsNumber.truthy a) eqn:E; [exact E | reflexivity]. Qed.

(** X16.  The sunspot number the three endpoints pass on, and the transmit
    power [GET /api/predict] passes on, are never 0 and never NaN: a query
    value that parses to 0 or does not parse is replaced by 100. *)
Theorem ssn_and_power_default_100 (pf : Platform) (query : Query) (now : Z) (h : float) :
  let sunspots := or_else (parseInt_opt (query !! "ssn")) 100%float in
  let watts := or_else (parseInt_opt (query !! "txPower")) 100%float in
  ssn (predict_params pf query now) = Some sunspots
  /\ ssn (hourly_params pf query now h) = Some sunspots
  /\ ssn (bands_params pf query now) = Some sunspots
  /\ txPower (predict_params pf query now) = Some watts
  /\ JsNumber.truthy sunspots = true /\ JsNumber.truthy watts = true
  /\ sunspots = (if JsNumber.truthy (parseInt_opt (query !! "ssn"))
                 then parseInt_opt (query !! "ssn") else 100%float)
  /\ watts = (if JsNumber.truthy (parseInt_opt (query !! "txPower"))
              then parseInt_opt (query !! "txPower") else 100%float).
Proof.
  cbv zeta. repeat match goal with |- _ /\ _ => split end;
    try reflexivity; apply or_else_100_truthy.
Qed.

(** ** The band mapping, further *)

(** X17.  When the result has one row per band of the table, each at the
    band's nominal frequency (what the engine gives for the frequencies
    [GET /api/bands] asks for), every band of the table is in the mapping,
    with its own row. *)
Theorem nominal_rows_fill_every_band (rows : list FreqResult) (i : nat)
    (name : string) (nominal : float) (r : FreqResult) :
  rows_at_nominal rows ->
  HF_BANDS !! i = Some (name, nominal) ->
  rows !! i = Some r ->
  map_bands HF_BANDS rows !! name = Some (band_info r).
Proof.
  unfold rows_at_nominal. intros Hrows Hband Hrow.
  do 11 (destruct rows as [|[? ? ? ?] rows]; [discriminate|]).
  destruct rows; [|discriminate].
  cbn [map freq HF_BANDS snd] in Hrows.
  injection Hrows as -> -> -> -> -> -> -> -> -> -> ->.
  do 11 (destruct i as [|i];
         [cbn in Hband, Hrow; injection Hband as <- <-; injection Hrow as <-;
          vm_compute; reflexivity|]).
  discriminate.
Qed.

Lemma nominal_rows_fill_every_band_witness :
  band_freq <$> (map_bands HF_BANDS Demo2.nominal_rows !! "20m") = Some 14.1%float.
Proof.
  rewrite (nominal_rows_fill_every_band Demo2.nominal_rows 5 "20m" 14.1%float
             {| freq := 14.1%float; sdbw := (-100)%float; snr := 10%float;
                reliability := 50%float |});
    reflexivity.
Defined.

Lemma SFcompare_refl (x : spec_float) : x <> S754_nan -> SFcompare x x = Some Eq.
Proof.
  destruct x as [s|s| |s m e]; simpl; intros H; try congruence;
    destruct s; try reflexivity;
    rewrite Z.compare_refl, Pos.compare_cont_refl; reflexivity.
Qed.

Lemma isNaN_spec (x : float) : isNaN x = true -> Prim2SF x = S754_nan.
Proof.
  unfold isNaN, PrimFloat.is_nan. rewrite negb_true_iff, FloatAxioms.eqb_spec.
  unfold SFeqb. intros H.
  destruct (Prim2SF x) as [s|s| |s m e] eqn:E; [| |reflexivity|];
    rewrite SFcompare_refl in H by discriminate; discriminate.
Qed.

(** X18.  A row whose reliability field did not parse (NaN) is reported
    with the status POOR. *)
Theorem status_of_nan (r : float) : isNaN r = true -> status_of r = "POOR".
Proof.
  intros H. apply isNaN_spec in H.
  apply status_of_poor; rewrite leb_spec, H; unfold SFleb;
    match goal with |- context [SFcompare ?a _] => destruct a end; reflexivity.
Qed.

Lemma status_of_nan_witness :
  status_of (reliability (row_record "02, 05,   14.100, -98.50,  22.10, n/a")) = "POOR".
Proof. apply status_of_nan. reflexivity. Defined.

(** ** The health endpoint *)


(** The engine installed without [libp372.so]: healthy all the same. *)
Example api_health_without_libp372 :
  exists h,
    api_health Demo.healthy Demo2.installed = (Returned h, Demo2.installed)
    /\ health_status h = "healthy" /\ health_libp372 h = "missing".
Proof. eexists. split; [vm_compute; reflexivity|]. by_evaluation. Qed.

Lemma request_hour_truthy (hour : option string) (now : Z) :
  JsNumber.truthy (request_hour hour now) = true.
Proof.
  unfold request_hour, or_else, getUTCHours.
  assert (Hutc : 0 <= (now / 3600000) mod 24 < 24) by (apply Z.mod_pos_bound; lia).
  destruct (JsNumber.truthy (parseInt_opt hour)) eqn:E; [rewrite E; exact E|].
  destruct (JsNumber.truthy (of_Z ((now / 3600000) mod 24))) eqn:E2;
    first [ reflexivity | exact E2 | rewrite E2; exact E2 ].
Qed.

(** X20.  [GET /api/bands] with the four coordinates always asks the
    engine for the 11 frequencies of the band table, for an hour that is
    never 0 and never NaN; it answers 200 with the MUF and the band mapping
    of the rows when [runPrediction] returns, and 500 with the message of
    the error when it throws. *)
Theorem api_bands_answer (pf : Platform) (query : Query) (w : World) :
  let params := bands_params pf query (clock w) in
  frequencies params = Some (map snd HF_BANDS)
  /\ length (map snd HF_BANDS) = 11%nat
  /\ JsNumber.truthy (hour params) = true
  /\ api_bands pf query w =
     if missing_coordinates query then
       (Returned {| statusCode := 400; body := ErrorBody "Missing required coordinates" |}, w)
     else
       match runPrediction pf params w with
       | (Returned results, w') =>
           (Returned {| statusCode := 200;
                        body := BandsBody (muf results)
                                  (map_bands HF_BANDS (result_frequencies results))
                                  results |},
            w')
       | (Thrown err, w') =>
           (Returned {| statusCode := 500; body := ErrorBody (message err) |}, w')
       end.
Proof.
  cbv zeta. split; [reflexivity|]. split; [reflexivity|].
  split; [apply request_hour_truthy|].
  unfold api_bands, try_catch, bind, Date_now, ret.
  destruct (missing_coordinates query); [reflexivity|].
  destruct (runPrediction pf (bands_params pf query (clock w)) w) as [[results|err] w'];
    reflexivity.
Qed.

(** X21.  When the check of the scratch directory returns, the directory
    exists; it is only made when nothing is there, together with the
    directory [/tmp] above it when that is missing too
    ([{ recursive: true }]).  Nothing that was there is changed, and no
    path other than these two. *)
Theorem ensure_temp_dir_post (pf : Platform) (w w' : World) :
  ensure_temp_dir pf w = (Returned tt, w') ->
  is_Some (nodes w' !! TEMP_DIR)
  /\ (nodes w !! TEMP_DIR = None -> is_Some (nodes w' !! "/tmp"))
  /\ (forall p, p <> TEMP_DIR -> p <> "/tmp" -> nodes w' !! p = nodes w !! p)
  /\ (forall p, is_Some (nodes w !! p) -> nodes w' !! p = nodes w !! p)
  /\ (is_Some (nodes w !! TEMP_DIR) -> w' = w).
Proof.
  unfold ensure_temp_dir, bind, existsSync, when, ret.
  case_bool_decide as Hd; cbn [negb].
  - intros [= <-]. split; [exact Hd|]. split.
    { intros Hn. destruct Hd as [x Hx]. congruence. }
    split; [reflexivity|]. split; reflexivity.
  - intros H. apply mkdirSync_returned in H. rewrite H.
    split; [apply make_dirs_made; left; reflexivity|].
    split; [intros _; apply make_dirs_made; right; left; reflexivity|].
    split.
    { intros p H1 H2. apply make_dirs_lookup. right.
      intros [<-|Hin]; [congruence|].
      change (parent_dirs TEMP_DIR) with ["/tmp"] in Hin.
      destruct Hin as [<-|[]]. congruence. }
    split; [intros p Hp; apply make_dirs_lookup; left; exact Hp|].
    intros Hs. exfalso. apply Hd. exact Hs.
Qed.

Lemma ensure_temp_dir_post_witness :
  let w := {| nodes := ∅; clock := 0; entropy := [] |} in
  let w' := snd (ensure_temp_dir Demo.healthy w) in
  is_Some (nodes w' !! TEMP_DIR)
  /\ (nodes w !! TEMP_DIR = None -> is_Some (nodes w' !! "/tmp"))
  /\ (forall p, p <> TEMP_DIR -> p <> "/tmp" -> nodes w' !! p = nodes w !! p)
  /\ (forall p, is_Some (nodes w !! p) -> nodes w' !! p = nodes w !! p)
  /\ (is_Some (nodes w !! TEMP_DIR) -> w' = w).
Proof.
  cbv zeta. apply (ensure_temp_dir_post Demo.healthy). vm_compute. reflexivity.
Defined.
